(** * math3d: vectors and quaternions over numpy arrays

    A shallow embedding of [math3d/vectorN.py] and [math3d/quaternion.py].

    Numbers.  A numpy [float64] is idealised as a real number, plus one extra
    value [NaN] standing for every non-finite float (the result of [0/0], of
    a division by zero, of [sqrt] or [acos] outside their domain).  Rounding
    is not modelled: statements that the source makes "within tolerance" are
    read on the reals.

    Errors.  A Python call either returns or raises; [result] is the error
    monad, with one constructor per exception class the code can raise. *)

From Stdlib Require Import Reals Lra Lia ZArith.
From Stdlib Require Import Ascii String.
From stdpp Require Import base option list strings gmap.

(** ** Exceptions and the error monad *)

Inductive verr : Set :=
  | Initializer (n : nat)   (* "Initializer for Vector{n} must be of length {n}" *)
  | TooFewVectors           (* "There must be at least 2 vectors to get adjacent lengths" *)
  | Inhomogeneous           (* numpy: ragged nested sequence *)
  | Broadcast               (* numpy: operands / input could not be broadcast *)
  | CannotResize            (* numpy: ndarray.resize refused *)
  | ZeroStep                (* slice step cannot be zero *)
  | NotInString.            (* str.index: substring not found *)

Inductive exn : Set :=
  | ValueError (why : verr)
  | IndexError
  | KeyError
  | TypeError
  | AttributeError
  | NameError
  | NotImplementedError.

Inductive result (A : Type) : Type :=
  | Ok (a : A)
  | Raise (e : exn).
Arguments Ok {A} a.
Arguments Raise {A} e.

Definition bind {A B} (m : result A) (k : A -> result B) : result B :=
  match m with
  | Ok a => k a
  | Raise e => Raise e
  end.

#[global] Instance result_ret : MRet result := fun A a => Ok a.
#[global] Instance result_bind : MBind result := fun A B k m => bind m k.
#[global] Instance result_fmap : FMap result := fun A B f m => bind m (fun a => Ok (f a)).

(** ** Numbers *)

Module Num.

Inductive num : Type :=
  | Fin (r : R)
  | NaN.

Definition lift1 (f : R -> R) (a : num) : num :=
  match a with
  | Fin x => Fin (f x)
  | NaN => NaN
  end.

Definition lift2 (f : R -> R -> R) (a b : num) : num :=
  match a, b with
  | Fin x, Fin y => Fin (f x y)
  | _, _ => NaN
  end.

Definition add : num -> num -> num := lift2 Rplus.
Definition sub : num -> num -> num := lift2 Rminus.
Definition mul : num -> num -> num := lift2 Rmult.

(** [x / 0] is not finite. *)
Definition div (a b : num) : num :=
  match a, b with
  | Fin x, Fin y => if Req_dec_T y 0 then NaN else Fin (x / y)%R
  | _, _ => NaN
  end.

Definition sqrt (a : num) : num :=
  match a with
  | Fin x => if Rlt_dec x 0 then NaN else Fin (R_sqrt.sqrt x)
  | NaN => NaN
  end.

Definition acos (a : num) : num :=
  match a with
  | Fin x =>
      if Rlt_dec x (-1) then NaN
      else if Rlt_dec 1 x then NaN
      else Fin (Ratan.acos x)
  | NaN => NaN
  end.

Definition sin : num -> num := lift1 Rtrigo_def.sin.
Definition cos : num -> num := lift1 Rtrigo_def.cos.

(** [np.deg2rad] *)
Definition deg2rad (a : num) : num := mul a (Fin (PI / 180)).

(** [abs(a) >= 1.0]; every comparison with NaN is false. *)
Definition abs_ge_1 (a : num) : bool :=
  match a with
  | Fin x => if Rle_dec 1 (Rabs x) then true else false
  | NaN => false
  end.

Definition zero : num := Fin 0.
Definition one : num := Fin 1.
Definition two : num := Fin 2.

Definition sum (xs : list num) : num := foldr add zero xs.

Definition is_fin (a : num) : Prop := exists r, a = Fin r.

#[global] Instance num_inhabited : Inhabited num := populate NaN.

End Num.
Export Num (num, Fin, NaN).

(** ** numpy arrays as lists

    A one-dimensional array is a [list num]; a two-dimensional array of shape
    [(B, N)] is the list of its [B] rows.  The classes keep [N] fixed
    ([reshape((-1, N))] in the array constructors), so the width of a row is
    known from the class. *)

Abbreviation vec := (list num).
Abbreviation rows := (list (list num)).

Module Np.

(** Broadcasting of two arrays along their first axis: equal lengths pair
    up, a length-1 operand is repeated, anything else is a [ValueError]. *)
Definition broadcast2 {A B C} (f : A -> B -> C) (xs : list A) (ys : list B)
  : result (list C) :=
  if decide (length xs = length ys) then Ok (zip_with f xs ys)
  else match xs, ys with
       | [x], _ => Ok (f x <$> ys)
       | _, [y] => Ok ((fun x => f x y) <$> xs)
       | _, _ => Raise (ValueError Broadcast)
       end.

(** [dst[...] = vals] where the destination has [m] entries along the first
    axis: the value is broadcast to the destination, never the reverse. *)
Definition assign {A} (m : nat) (vals : list A) : result (list A) :=
  if decide (length vals = m) then Ok vals
  else match vals with
       | [x] => Ok (replicate m x)
       | _ => Raise (ValueError Broadcast)
       end.

(** [np.empty((m, c))]: the contents are whatever the buffer held; every
    entry is overwritten before it is read. *)
Definition empty (m c : nat) : rows := replicate m (replicate c NaN).

(** [dst[:, j] = vals] *)
Definition set_col (j : nat) (dst : rows) (vals : vec) : result rows :=
  vals ← assign (length dst) vals;
  Ok (zip_with (fun r x => <[j:=x]> r) dst vals).

(** [dst[:, :n] = vals]: the value is broadcast to the [n] columns of every
    row of the destination. *)
Definition set_cols_upto (n : nat) (dst : rows) (vals : rows) : result rows :=
  vals ← assign (length dst) vals;
  vals ← mapM (assign n) vals;
  Ok (zip_with (fun r v => v ++ drop n r) dst vals).

(** [a[:, j]] *)
Definition col (j : nat) (a : rows) : vec := (fun r => r !!! j) <$> a.

(** [a[:, :n]] *)
Definition cols_upto (n : nat) (a : rows) : rows := take n <$> a.

(** [np.cross] on rows of width 3. *)
Definition cross (a b : vec) : vec :=
  match a, b with
  | [a0; a1; a2], [b0; b1; b2] =>
      [ Num.sub (Num.mul a1 b2) (Num.mul a2 b1);
        Num.sub (Num.mul a2 b0) (Num.mul a0 b2);
        Num.sub (Num.mul a0 b1) (Num.mul a1 b0) ]
  | _, _ => []
  end.

(** [x * a] for a scalar [x]. *)
Definition scale (x : num) (a : vec) : vec := Num.mul x <$> a.

(** The elementwise product of a [(B, c)] array with a one-dimensional array
    [ys]: numpy aligns [ys] with the LAST axis, so [ys] must have [c] entries
    (each row is multiplied entry by entry) or one entry. *)
Definition mul_trailing (c : nat) (a : rows) (ys : vec) : result rows :=
  match ys with
  | [y] => Ok (scale y <$> a)
  | _ => if decide (length ys = c) then Ok ((fun r => zip_with Num.mul r ys) <$> a)
         else Raise (ValueError Broadcast)
  end.

(** [np.einsum("...ij,...ij->...i", a, b)]: the dot product of paired rows. *)
Definition rowdot (a b : vec) : num := Num.sum (zip_with Num.mul a b).

(** A Python index into a sequence of [len] items: negative indices count
    from the end, anything outside is an [IndexError]. *)
Definition norm_index (len : nat) (i : Z) : result nat :=
  let j := if (i <? 0)%Z then (i + Z.of_nat len)%Z else i in
  if decide (0 ≤ j < Z.of_nat len)%Z then Ok (Z.to_nat j) else Raise IndexError.

(** [a[i]] *)
Definition getrow {A} (a : list A) (i : Z) : result A :=
  k ← norm_index (length a) i;
  match a !! k with
  | Some r => Ok r
  | None => Raise IndexError
  end.

(** [a[i] = v]: the value is broadcast to the width of the row. *)
Definition setrow (a : rows) (i : Z) (v : vec) : result rows :=
  k ← norm_index (length a) i;
  match a !! k with
  | Some old => v ← assign (length old) v; Ok (<[k:=v]> a)
  | None => Raise IndexError
  end.

(** [str.lower] and [str.index] *)
Definition lower_char (c : ascii) : ascii :=
  let n := nat_of_ascii c in
  if decide (65 ≤ n ≤ 90) then ascii_of_nat (n + 32) else c.

Fixpoint lower (s : string) : string :=
  match s with
  | EmptyString => EmptyString
  | String c t => String (lower_char c) (lower t)
  end.

Fixpoint str_index (hay needle : string) : result nat :=
  if String.prefix needle hay then Ok 0
  else match hay with
       | EmptyString => Raise (ValueError NotInString)
       | String _ t => S <$> str_index t needle
       end.

End Np.

(** Modelled from the spec: [utils.arrayCompat], which is imported by both
    files but is not among them.  The spec describes the coercion helpers as
    normalising scalars, lists and arrays "into a common batched
    representation before any kernel runs"; an operand that already is a
    batch is returned as it is, and the kernels below are stated on batches. *)
Definition arrayCompat {A} (a : list A) : list A := a.

(** ** The kernels of [QuaternionArray] *)

(** [Quaternion.asArray]: [self[None, ...]] *)
Definition Quaternion_asArray (self : vec) : rows := [self].

(** [QuaternionArray.zeros(length)] *)
Definition QuaternionArray_zeros (length : nat) : rows :=
  replicate length (replicate 4 Num.zero).

(** [QuaternionArray.quatquatProduct(p, q)] *)
Definition quatquatProduct (p q : rows) : result rows :=
  let p := arrayCompat p in
  let q := arrayCompat q in
  let prod := Np.empty (max (length p) (length q)) 4 in
  pwqw ← Np.broadcast2 Num.mul (Np.col 3 p) (Np.col 3 q);
  prods ← Np.broadcast2 (zip_with Num.mul) (Np.cols_upto 3 p) (Np.cols_upto 3 q);
  wcol ← Np.broadcast2 Num.sub pwqw (Num.sum <$> prods);
  prod ← Np.set_col 3 prod wcol;
  pwq ← Np.broadcast2 Np.scale (Np.col 3 p) (Np.cols_upto 3 q);
  qwp ← Np.broadcast2 Np.scale (Np.col 3 q) (Np.cols_upto 3 p);
  crs ← Np.broadcast2 Np.cross (Np.cols_upto 3 p) (Np.cols_upto 3 q);
  s1 ← Np.broadcast2 (zip_with Num.add) pwq qwp;
  s2 ← Np.broadcast2 (zip_with Num.add) s1 crs;
  Np.set_cols_upto 3 prod s2.

(** [Quaternion.__mul__] with a [Quaternion] on the right. *)
Definition Quaternion_mul (self other : vec) : result vec :=
  prod ← quatquatProduct (Quaternion_asArray self) (Quaternion_asArray other);
  Np.getrow prod 0.

(** [Quaternion.fromComponents(x, y, z, w)] *)
Definition fromComponents (x y z w : num) : vec := [x; y; z; w].

(** [QuaternionArray.vectorquatproduct(v, q)] *)
Definition vectorquatproduct (v q : rows) : result rows :=
  let v := arrayCompat v in
  let q := arrayCompat q in
  let qvec := Np.cols_upto 3 q in
  uv ← Np.broadcast2 Np.cross qvec v;
  uuv ← Np.broadcast2 Np.cross qvec uv;
  uv ← Np.mul_trailing 3 uv (Np.scale Num.two (Np.col 3 q));
  let uuv := Np.scale Num.two <$> uuv in
  s ← Np.broadcast2 (zip_with Num.add) v uv;
  Np.broadcast2 (zip_with Num.add) s uuv.

(** [QuaternionArray.axisAngle(axes, angles, degrees)] *)
Definition axisAngle (axes : rows) (angles : vec) (degrees : bool) : result rows :=
  let axes := arrayCompat axes in
  let angles := if degrees then Num.deg2rad <$> angles else angles in
  let sins := Num.sin <$> angles in
  let ret := QuaternionArray_zeros (length axes) in
  xyz ← Np.broadcast2 (fun ax s => Np.scale s ax) axes sins;
  ret ← Np.set_cols_upto 3 ret xyz;
  Np.set_col 3 ret (Num.cos <$> angles).

(** [QuaternionArray.alignedRotations(axisName, angles, degrees)] *)
Definition alignedRotations (axisName : string) (angles : vec) (degrees : bool)
  : result rows :=
  let angles := if degrees then Num.deg2rad <$> angles else angles in
  ind ← Np.str_index "xyz" (Np.lower axisName);
  let ret := QuaternionArray_zeros (length angles) in
  let half := (fun a => Num.div a Num.two) <$> angles in
  ret ← Np.set_col 3 ret (Num.cos <$> half);
  Np.set_col ind ret (Num.sin <$> half).

(** [QuaternionArray.slerp(other, tVal)] for a scalar [tVal].  The products
    [self * ratioA] and [other * ratioB] fall through [__mul__] to numpy's
    elementwise product of a [(B, 4)] array with a [(B,)] array. *)
Definition slerp (self other : rows) (tVal : num) : result rows :=
  let other := arrayCompat other in
  cosHalfAngle ← Np.broadcast2 Np.rowdot self other;
  let cosHalfAngle :=
    (fun c => if Num.abs_ge_1 c then Num.one else c) <$> cosHalfAngle in
  let halfAngle := Num.acos <$> cosHalfAngle in
  let sinHalfAngle :=
    (fun c => Num.sqrt (Num.sub Num.one (Num.mul c c))) <$> cosHalfAngle in
  let ratioA :=
    zip_with Num.div
      ((fun h => Num.sin (Num.mul (Num.sub Num.one tVal) h)) <$> halfAngle)
      sinHalfAngle in
  let ratioB :=
    zip_with Num.div ((fun h => Num.sin (Num.mul tVal h)) <$> halfAngle)
      sinHalfAngle in
  a ← Np.mul_trailing 4 self ratioA;
  b ← Np.mul_trailing 4 other ratioB;
  Np.broadcast2 (zip_with Num.add) a b.

(** ** Vectors: [VectorN] and [VectorNArray], for a class of dimension [N] *)

(** The registry [VECTOR_BY_SIZE] / [VECTOR_ARRAY_BY_SIZE]: classes exist for
    the sizes 2, 3 and 4; any other key is a [KeyError]. *)
Definition VECTOR_BY_SIZE (n : nat) : result nat :=
  if decide (n ∈ [2; 3; 4]) then Ok n else Raise KeyError.

Definition VECTOR_ARRAY_BY_SIZE (n : nat) : result nat := VECTOR_BY_SIZE n.

(** [VectorN.full(value)] for the class of dimension [N]. *)
Definition VectorN_full (N : nat) (value : num) : vec := replicate N value.

(** [VectorNArray.full(length, value)] *)
Definition VectorNArray_full (N length : nat) (value : num) : rows :=
  replicate length (replicate N value).

(** [VectorN.asArray]: [self[None, ...]] *)
Definition VectorN_asArray (self : vec) : rows := [self].

(** [VectorN.asVectorSize(n, pad)].  [ret[:n] = self[:n]] copies the first
    [min(n, N)] entries over the padded vector. *)
Definition VectorN_asVectorSize (N : nat) (self : vec) (n : nat) (pad : num)
  : result vec :=
  if decide (n = N) then Ok self
  else
    typ ← VECTOR_BY_SIZE n;
    let ret := VectorN_full typ pad in
    let n := min n N in
    Ok (take n self ++ drop n ret).

(** [VectorNArray.asVectorSize(n, pad)] *)
Definition VectorNArray_asVectorSize (N : nat) (self : rows) (n : nat) (pad : num)
  : result rows :=
  if decide (n = N) then Ok self
  else
    typ ← VECTOR_ARRAY_BY_SIZE n;
    let ret := VectorNArray_full typ (length self) pad in
    let n := min n N in
    Ok (zip_with (fun s r => take n s ++ drop n r) self ret).

(** [VectorN.__mul__] with a [Quaternion] on the right. *)
Definition VectorN_mul_Quaternion (N : nat) (self other : vec) : result vec :=
  exp ← VectorN_asVectorSize N self 3 Num.one;
  ret ← vectorquatproduct (VectorN_asArray exp) (Quaternion_asArray other);
  r0 ← Np.getrow ret 0;
  VectorN_asVectorSize 3 r0 N Num.one.

(** [VectorN.__mul__] with a [QuaternionArray] on the right. *)
Definition VectorN_mul_QuaternionArray (N : nat) (self : vec) (other : rows)
  : result rows :=
  exp ← VectorN_asVectorSize N self 3 Num.one;
  ret ← vectorquatproduct (VectorN_asArray exp) other;
  VectorNArray_asVectorSize 3 ret N Num.one.

(** [VectorNArray.lengthSquared], [length], [normal] *)
Definition VectorNArray_lengthSquared (self : rows) : vec :=
  (fun r => Np.rowdot r r) <$> self.

Definition VectorNArray_length (self : rows) : vec :=
  Num.sqrt <$> VectorNArray_lengthSquared self.

Definition VectorNArray_normal (self : rows) : rows :=
  zip_with (fun r len => (fun x => Num.div x len) <$> r) self
    (VectorNArray_length self).

(** [VectorNArray.__mul__] with a [VectorNArray] of the same class on the
    right: the dot product of paired rows. *)
Definition VectorNArray_mul_VectorNArray (self other : rows) : result vec :=
  Np.broadcast2 Np.rowdot self other.

(** [VectorNArray.angle(other)] *)
Definition VectorNArray_angle (self other : rows) : result vec :=
  let other := arrayCompat other in
  dots ← VectorNArray_mul_VectorNArray (VectorNArray_normal self)
          (VectorNArray_normal other);
  Ok (Num.acos <$> (dots : vec)).

(** [VectorNArray.cross(other)] *)
Definition VectorNArray_cross (self other : rows) : result rows :=
  let other := arrayCompat other in
  Np.broadcast2 Np.cross self other.

(** [self[1:] - self[:-1]] *)
Definition adjacent_differences (self : rows) : result rows :=
  Np.broadcast2 (zip_with Num.sub) (drop 1 self) (take (length self - 1) self).

(** [VectorNArray.adjacentLengths] *)
Definition adjacentLengths (self : rows) : result vec :=
  if decide (length self < 2) then Raise (ValueError TooFewVectors)
  else
    d ← adjacent_differences self;
    Ok (VectorNArray_length d).

(** Modelled from the spec: [VectorNArray.zeros].  [parallelTransport] calls
    [VECTOR_ARRAY_BY_SIZE[3].zeros(len(self))], but [vectorN.py] defines only
    [ones] and [full] on [VectorNArray]; the spec lists construction "from
    zeros/ones/full", and [QuaternionArray.zeros] is the array of zeros of
    the given length.  This is that constructor for the class of dimension
    [N]. *)
Definition VectorNArray_zeros (N length : nat) : rows :=
  replicate length (replicate N Num.zero).

(** The loop [for i in range(len(self) - 1): out[i + 1] = out[i] * quats[i]]
    of [parallelTransport], over the list of the values of [i]. *)
Fixpoint transport_loop (quats : rows) (idxs : list nat) (out : rows) : result rows :=
  match idxs with
  | [] => Ok out
  | i :: idxs =>
      oi ← Np.getrow out (Z.of_nat i);
      qi ← Np.getrow quats (Z.of_nat i);
      v ← VectorN_mul_Quaternion 3 oi qi;
      out ← Np.setrow out (Z.of_nat i + 1) v;
      transport_loop quats idxs out
  end.

(** [VectorNArray.parallelTransport(upv, inverse)] on a [Vector3Array]. *)
Definition parallelTransport (self : rows) (upv : vec) (inverse : bool)
  : result rows :=
  adjVecs ← adjacent_differences self;
  let nxt := drop 1 adjVecs in
  let prv := take (length adjVecs - 1) adjVecs in
  binorms ← VectorNArray_cross nxt prv;
  angles ← VectorNArray_angle nxt prv;
  let angles := if inverse then Np.scale (Fin (-1)) angles else angles in
  quats ← axisAngle binorms angles false;
  typ ← VECTOR_ARRAY_BY_SIZE 3;
  let out := VectorNArray_zeros typ (length self) in
  out ← Np.setrow out 0 upv;
  out ← transport_loop quats (seq 0 (length self - 1)) out;
  prev ← Np.getrow out (-2);
  Np.setrow out (-1) prev.

(** ** The spec's formulas, written as the spec writes them

    These definitions follow the words of the specification, not the code;
    the theorems below compare the code with them. *)

Declare Scope num_scope.
Delimit Scope num_scope with num.
Infix "+" := Num.add : num_scope.
Infix "-" := Num.sub : num_scope.
Infix "*" := Num.mul : num_scope.
Infix "/" := Num.div : num_scope.

(** A quaternion in (x, y, z, w) order. *)
Abbreviation quat := (num * num * num * num)%type.

Definition quat_row (q : quat) : vec :=
  let '(x, y, z, w) := q in [x; y; z; w].

(** Spec, Hamilton product: [w = p.w*q.w − dot(p.xyz, q.xyz)] and
    [xyz = p.w*q.xyz + q.w*p.xyz + cross(p.xyz, q.xyz)]. *)
Definition hamilton (p q : quat) : quat :=
  let '(px, py, pz, pw) := p in
  let '(qx, qy, qz, qw) := q in
  ( pw * qx + qw * px + (py * qz - pz * qy),
    pw * qy + qw * py + (pz * qx - px * qz),
    pw * qz + qw * pz + (px * qy - py * qx),
    pw * qw - (px * qx + py * qy + pz * qz) )%num.

(** The pairing that numpy's broadcasting makes of two batches. *)
Definition bpairs {A B} (xs : list A) (ys : list B) : list (A * B) :=
  match xs, ys with
  | [x], _ => (fun y => (x, y)) <$> ys
  | _, [y] => (fun x => (x, y)) <$> xs
  | _, _ => zip xs ys
  end.

(** Batch lengths that broadcast to the longer one. *)
Definition compatible (a b : nat) : Prop :=
  a = b \/ (a = 1 /\ b <> 0) \/ (b = 1 /\ a <> 0).

(** The unit basis vector of axis [i], and the quaternion with
    [w = cos(θ/2)], component [i] equal to [sin(θ/2)] and zeros elsewhere. *)
Definition basis (i : nat) : vec := <[i:=Fin 1]> (replicate 3 (Fin 0)).

Definition half_angle_quat (i : nat) (θ : R) : vec :=
  <[i:=Fin (sin (θ / 2))]> [Fin 0; Fin 0; Fin 0; Fin (cos (θ / 2))].

(** The axis names and the component each one selects. *)
Definition axis_name (name : string) (i : nat) : Prop :=
  (name, i) ∈ [("x", 0); ("y", 1); ("z", 2); ("X", 0); ("Y", 1); ("Z", 2)].

(** Spec, resizing: a copy when [M = N], the first [M] components when
    [M < N], the [N] components followed by the pad value when [M > N]. *)
Definition resized (N M : nat) (pad : num) (v : vec) : vec :=
  if decide (M = N) then v
  else if decide (M < N) then take M v
  else v ++ replicate (M - N) pad.

(** The dimensions for which a vector class exists. *)
Definition dimension (n : nat) : Prop := n ∈ [2; 3; 4].

(** An array of [N]-vectors: every row has [N] entries. *)
Definition wf_rows (N : nat) (a : rows) : Prop := Forall (fun r => length r = N) a.

(** ** Shapes and types: arrays as numpy sees them

    For the constructors and for indexing, an array is its shape and its
    row-major buffer, and each array carries the Python class it is viewed
    as. *)

Record ndarray : Type := { shape : list nat; data : list num }.

(** [ary.size] *)
Definition size (a : ndarray) : nat := foldr Nat.mul 1 (shape a).

Inductive cls : Set :=
  | Float64                  (* a bare scalar, the result of shape () *)
  | Ndarray                  (* np.ndarray: an untyped buffer *)
  | Quaternion
  | QuaternionArray
  | VectorN (N : nat)
  | VectorNArray (N : nat).

(** [ary.view(typ)] *)
Record array : Type := View { class : cls; ary : ndarray }.

(** Python values that [np.asarray] accepts: numbers and nested lists. *)
#[local] Unset Elimination Schemes.
Inductive pyobj : Type :=
  | PyFloat (x : num)
  | PyList (items : list pyobj).
#[local] Set Elimination Schemes.

(** The number of numbers in a nested list. *)
Fixpoint element_count (o : pyobj) : nat :=
  match o with
  | PyFloat _ => 1
  | PyList items => foldr (fun o n => element_count o + n) 0 items
  end.

(** [np.asarray(o, dtype=float)]: the items of a list must all have the same
    shape; a ragged list is a [ValueError]. *)
Fixpoint asarray (o : pyobj) : result ndarray :=
  match o with
  | PyFloat x => Ok {| shape := []; data := [x] |}
  | PyList items =>
      let fix each (l : list pyobj) : result (list ndarray) :=
        match l with
        | [] => Ok []
        | o :: l => a ← asarray o; r ← each l; Ok (a :: r)
        end in
      subs ← each items;
      match subs with
      | [] => Ok {| shape := [0]; data := [] |}
      | a :: _ =>
          if decide (Forall (fun b => shape b = shape a) subs)
          then Ok {| shape := length subs :: shape a;
                     data := concat (data <$> subs) |}
          else Raise (ValueError Inhomogeneous)
      end
  end.

(** The walk of [asarray] over the items of a list. *)
Definition asarray_each : list pyobj -> result (list ndarray) :=
  fix each (l : list pyobj) : result (list ndarray) :=
    match l with
    | [] => Ok []
    | o :: l => a ← asarray o; r ← each l; Ok (a :: r)
    end.

(** [Quaternion.__new__(cls, input_array=None)] *)
Definition Quaternion_new (input_array : option pyobj) : result array :=
  ary ← match input_array with
        | None => Ok {| shape := [4];
                        data := <[3:=Num.one]> (replicate 4 Num.zero) |}
        | Some o => asarray o
        end;
  if decide (size ary ≠ 4) then Raise (ValueError (Initializer 4))
  else Ok (View Quaternion ary).

(** [VectorN.__new__(cls, input_array=None)] for the class of dimension [N]. *)
Definition VectorN_new (N : nat) (input_array : option pyobj) : result array :=
  ary ← match input_array with
        | None => Ok {| shape := [N]; data := replicate N Num.zero |}
        | Some o => asarray o
        end;
  if decide (size ary ≠ N) then Raise (ValueError (Initializer N))
  else Ok (View (VectorN N) ary).

(** *** Indexing

    An index is one item or a tuple of items; an item is an integer, a
    slice, [None] (a new axis) or [...]. *)

Inductive index_item : Set :=
  | IInt (i : Z)
  | ISlice (start stop step : option Z)
  | INewaxis
  | IEllipsis.

Inductive index : Set :=
  | Item (x : index_item)
  | Tuple (xs : list index_item).

#[global] Instance index_item_eq_dec : EqDecision index_item.
Proof. solve_decision. Defined.

(** [slice(None, None, None)], written [:] *)
Definition full_slice : index_item := ISlice None None None.

(** The positions a slice selects in a sequence of [len] items
    ([slice.indices]). *)
Definition slice_positions (len : nat) (start stop step : option Z)
  : result (list nat) :=
  let n := Z.of_nat len in
  let step := default 1%Z step in
  if decide (step = 0)%Z then Raise (ValueError ZeroStep)
  else
    let clamp (lo hi : Z) (v : Z) : Z :=
      let v := if (v <? 0)%Z then (v + n)%Z else v in
      if (v <? lo)%Z then lo else if (hi <? v)%Z then hi else v in
    if decide (0 < step)%Z then
      let a := from_option (clamp 0 n)%Z 0%Z start in
      let b := from_option (clamp 0 n)%Z n stop in
      let k := if (a <? b)%Z then ((b - a - 1) / step + 1)%Z else 0%Z in
      Ok ((fun j => Z.to_nat (a + Z.of_nat j * step)) <$> seq 0 (Z.to_nat k))
    else
      let a := from_option (clamp (-1) (n - 1))%Z (n - 1)%Z start in
      let b := from_option (clamp (-1) (n - 1))%Z (-1)%Z stop in
      let k := if (b <? a)%Z then ((a - b - 1) / (- step) + 1)%Z else 0%Z in
      Ok ((fun j => Z.to_nat (a + Z.of_nat j * step)) <$> seq 0 (Z.to_nat k)).

(** Items that use up one axis of the array. *)
Definition consumes (x : index_item) : bool :=
  match x with
  | IInt _ | ISlice _ _ _ => true
  | INewaxis | IEllipsis => false
  end.

(** [...] stands for as many [:] as are needed to reach every axis. *)
Fixpoint expand_ellipsis (ndim : nat) (xs : list index_item)
  : result (list index_item) :=
  match xs with
  | [] => Ok []
  | IEllipsis :: xs =>
      if decide (IEllipsis ∈ xs) then Raise IndexError
      else Ok (replicate (ndim - length (filter (fun x => consumes x = true) xs))
                 full_slice ++ xs)
  | x :: xs =>
      (x ::.) <$> expand_ellipsis (if consumes x then ndim - 1 else ndim) xs
  end.

(** The shape of the selection and the offsets of its entries in the
    row-major buffer of an array of shape [dims]. *)
Fixpoint select (xs : list index_item) (dims : list nat)
  : result (list nat * list nat) :=
  match xs with
  | [] => Ok (dims, seq 0 (foldr Nat.mul 1 dims))
  | INewaxis :: xs =>
      r ← select xs dims; Ok (1 :: r.1, r.2)
  | IEllipsis :: xs => select xs dims
  | IInt i :: xs =>
      match dims with
      | [] => Raise IndexError
      | d :: ds =>
          k ← Np.norm_index d i;
          r ← select xs ds;
          Ok (r.1, fmap (M:=list) (fun o => k * foldr Nat.mul 1 ds + o) r.2)
      end
  | ISlice start stop step :: xs =>
      match dims with
      | [] => Raise IndexError
      | d :: ds =>
          ks ← slice_positions d start stop step;
          r ← select xs ds;
          Ok (length ks :: r.1,
              mbind (M:=list)
                (fun k => fmap (M:=list) (fun o => k * foldr Nat.mul 1 ds + o) r.2)
                ks)
      end
  end.

(** [np.ndarray.__getitem__] for integers, slices, [None] and [...]. *)
Definition ndarray_getitem (a : ndarray) (idx : index) : result ndarray :=
  let xs := match idx with Item x => [x] | Tuple xs => xs end in
  xs ← expand_ellipsis (length (shape a)) xs;
  r ← select xs (shape a);
  Ok {| shape := r.1; data := fmap (M:=list) (fun o => data a !!! o) r.2 |}.

(** The test of [QuaternionArray.__getitem__]:
    [isinstance(idx, tuple) and len(idx) > 1 and idx[1] != slice(None, None, None)] *)
Definition selects_columns (idx : index) : bool :=
  match idx with
  | Tuple (_ :: x1 :: _) => bool_decide (x1 ≠ full_slice)
  | _ => false
  end.

(** [getReturnType(shape)] of the four classes; [None] is Python's [None]. *)
Definition Quaternion_getReturnType (shape : list nat) : option cls :=
  match shape with
  | [] => None
  | [n] => if decide (n = 4) then Some Quaternion else Some Ndarray
  | [_; n] => if decide (n = 4) then Some QuaternionArray else Some Ndarray
  | _ => Some Ndarray
  end.

Definition QuaternionArray_getReturnType (shape : list nat) : option cls :=
  match shape with
  | [] => None
  | [_; n] => if decide (n = 4) then Some QuaternionArray else Some Ndarray
  | [n] => if decide (n = 4) then Some Quaternion else Some Ndarray
  | _ => Some Ndarray
  end.

Definition VectorN_getReturnType (N : nat) (shape : list nat) : option cls :=
  match shape with
  | [] => None
  | [n] => if decide (n = N) then Some (VectorN N) else Some Ndarray
  | [_; n] => if decide (n = N) then Some (VectorNArray N) else Some Ndarray
  | _ => Some Ndarray
  end.

Definition VectorNArray_getReturnType (N : nat) (shape : list nat) : option cls :=
  match shape with
  | [] => None
  | [_; n] => if decide (n = N) then Some (VectorNArray N) else Some Ndarray
  | [n] => if decide (n = N) then Some (VectorN N) else Some Ndarray
  | _ => Some Ndarray
  end.

(** [ret] as it is when [getReturnType] gives [None], [ret.view(typ)]
    otherwise. *)
Definition view_as (typ : option cls) (ret : ndarray) : array :=
  match typ with
  | None => View Float64 ret
  | Some typ => View typ ret
  end.

(** [QuaternionArray.__getitem__(idx)] *)
Definition QuaternionArray_getitem (self : ndarray) (idx : index) : result array :=
  ret ← ndarray_getitem self idx;
  if selects_columns idx then Ok (View Ndarray ret)
  else Ok (view_as (QuaternionArray_getReturnType (shape ret)) ret).

(** [VectorNArray.__getitem__(idx)] for the class of dimension [N]. *)
Definition VectorNArray_getitem (N : nat) (self : ndarray) (idx : index)
  : result array :=
  ret ← ndarray_getitem self idx;
  Ok (view_as (VectorNArray_getReturnType N (shape ret)) ret).

(** [Quaternion.__getitem__(idx)] and [VectorN.__getitem__(idx)] *)
Definition Quaternion_getitem (self : ndarray) (idx : index) : result array :=
  ret ← ndarray_getitem self idx;
  Ok (view_as (Quaternion_getReturnType (shape ret)) ret).

Definition VectorN_getitem (N : nat) (self : ndarray) (idx : index) : result array :=
  ret ← ndarray_getitem self idx;
  Ok (view_as (VectorN_getReturnType N (shape ret)) ret).

(** The batched array of the given rows, as numpy holds it. *)
Definition of_rows (N : nat) (a : rows) : ndarray :=
  {| shape := [length a; N]; data := concat a |}.

(** ** Arrays as objects: [append], [extend], [appended], [extended]

    These four are about which object changes, so here an array is an object
    in a store, named by its location.  numpy lets [ndarray.resize] change an
    array in place only when the array owns its buffer and nothing else
    refers to it, and raises a [ValueError] otherwise; [resizable] records
    whether that is so for the object. *)

Abbreviation loc := positive.

Record pyarray : Type := PyArray { buf : rows; resizable : bool }.

Abbreviation store := (gmap loc pyarray).

(** A computation that reads and writes the store and may raise. *)
Definition M (A : Type) : Type := store -> result A * store.

#[global] Instance M_ret : MRet M := fun A a h => (Ok a, h).
#[global] Instance M_bind : MBind M := fun A B k m h =>
  match m h with
  | (Ok a, h) => k a h
  | (Raise e, h) => (Raise e, h)
  end.

Definition lift {A} (r : result A) : M A := fun h => (r, h).

Definition deref (l : loc) : M pyarray := fun h =>
  match h !! l with
  | Some a => (Ok a, h)
  | None => (Raise NameError, h)
  end.

Definition assign_buf (l : loc) (b : rows) : M unit := fun h =>
  match h !! l with
  | Some a => (Ok (), <[l:=PyArray b (resizable a)]> h)
  | None => (Raise NameError, h)
  end.

Definition alloc (a : pyarray) : M loc := fun h =>
  let l := fresh (dom h) in (Ok l, <[l:=a]> h).

(** [self.resize((new_len, N))]: in place; the rows added are zeros. *)
Definition ndarray_resize (N : nat) (self : loc) (new_len : nat) : M unit :=
  a ← deref self;
  if resizable a then
    assign_buf self
      (take new_len (buf a)
       ++ replicate (new_len - length (buf a)) (replicate N Num.zero))
  else lift (Raise (ValueError CannotResize)).

(** [np.resize(a, (new_len, 4))]: a new array, filled with the rows of [a]
    repeated as often as needed (zeros when [a] is empty). *)
Definition np_resize (a : rows) (new_len : nat) : rows :=
  if decide (a = [] \/ new_len = 0) then replicate new_len (replicate 4 Num.zero)
  else (fun i => a !!! (i mod length a)) <$> seq 0 new_len.

(** [a[-k:] = v] *)
Definition set_tail (a : rows) (k : nat) (v : rows) : result rows :=
  let start := if decide (k = 0) then 0 else length a - k in
  vals ← Np.assign (length a - start) v;
  Ok (take start a ++ vals).

(** [VectorNArray.append(v)]; the result is Python's [None]. *)
Definition VectorNArray_append (N : nat) (self : loc) (v : vec) : M (option loc) :=
  a ← deref self;
  _ ← ndarray_resize N self (length (buf a) + 1);
  a ← deref self;
  b ← lift (Np.setrow (buf a) (-1) v);
  _ ← assign_buf self b;
  mret None.

(** [VectorNArray.extend(v)] *)
Definition VectorNArray_extend (N : nat) (self : loc) (v : rows) : M (option loc) :=
  a ← deref self;
  _ ← ndarray_resize N self (length (buf a) + length v);
  a ← deref self;
  b ← lift (set_tail (buf a) (length v) v);
  _ ← assign_buf self b;
  mret None.

(** [QuaternionArray.appended(value)] for a [value] that is a quaternion or
    another sequence of numbers (the conversion of Euler angles and matrices
    belongs to modules outside these two files). *)
Definition QuaternionArray_appended (self : loc) (value : vec) : M loc :=
  a ← deref self;
  ret ← alloc (PyArray (np_resize (buf a) (length (buf a) + 1)) false);
  r ← deref ret;
  b ← lift (Np.setrow (buf r) (-1) value);
  _ ← assign_buf ret b;
  mret ret.

(** [QuaternionArray.extended(value)] *)
Definition QuaternionArray_extended (self : loc) (value : rows) : M loc :=
  a ← deref self;
  ret ← alloc (PyArray (np_resize (buf a) (length (buf a) + length value)) false);
  r ← deref ret;
  b ← lift (set_tail (buf r) (length value) value);
  _ ← assign_buf ret b;
  mret ret.

From Stdlib Require Import RNsatz.

(** ** Lengths and normalisation of quaternions

    [QuaternionArray] has the same three methods as [VectorNArray], with the
    same bodies; [Quaternion] goes through its length-1 batch. *)

(** [QuaternionArray.lengthSquared], [length], [normal] *)
Definition QuaternionArray_lengthSquared (self : rows) : vec :=
  (fun r => Np.rowdot r r) <$> self.

Definition QuaternionArray_length (self : rows) : vec :=
  Num.sqrt <$> QuaternionArray_lengthSquared self.

Definition QuaternionArray_normal (self : rows) : rows :=
  zip_with (fun r len => (fun x => Num.div x len) <$> r) self
    (QuaternionArray_length self).

(** [Quaternion.lengthSquared]: [self.asArray().lengthSquared()[0]] *)
Definition Quaternion_lengthSquared (self : vec) : result num :=
  Np.getrow (QuaternionArray_lengthSquared (Quaternion_asArray self)) 0.

(** [Quaternion.length] *)
Definition Quaternion_length (self : vec) : result num :=
  Num.sqrt <$> Quaternion_lengthSquared self.

(** [Quaternion.normal]: [self.asArray().normal()[0]] *)
Definition Quaternion_normal (self : vec) : result vec :=
  Np.getrow (QuaternionArray_normal (Quaternion_asArray self)) 0.

(** [Quaternion.__mul__] with a [QuaternionArray] on the right, and
    [QuaternionArray.__mul__] with a [QuaternionArray] on the right. *)
Definition Quaternion_mul_QuaternionArray (self : vec) (other : rows) : result rows :=
  quatquatProduct (Quaternion_asArray self) other.

Definition QuaternionArray_mul (self other : rows) : result rows :=
  let other := arrayCompat other in
  quatquatProduct self other.

(** [QuaternionArray.angles(other)] *)
Definition QuaternionArray_angles (self other : rows) : result vec :=
  let other := arrayCompat other in
  dots ← Np.broadcast2 Np.rowdot self other;
  Ok (Num.mul Num.two <$> (Num.acos <$> (dots : vec))).

(** *** Vocabulary for the statements: vectors and quaternions of reals *)

Definition fin_vec (xs : list R) : vec := Fin <$> xs.

Abbreviation rquat := (R * R * R * R)%type.

Definition fin_quat (q : rquat) : quat :=
  let '(x, y, z, w) := q in (Fin x, Fin y, Fin z, Fin w).

(** The sum of the squares, in the order [np.einsum] adds them up here. *)
Definition sumsq (xs : list R) : R := foldr (fun x s => (x * x + s)%R) 0%R xs.

Definition quat_sumsq (q : rquat) : R :=
  let '(x, y, z, w) := q in sumsq [x; y; z; w].

(** ** Rotation: the matrix of a quaternion, and arrays of vectors *)

(** Modelled from the spec: [Matrix3Array.zeros], of [matrixN.py], which is
    not among the two files.  The spec lists construction "from
    zeros/ones/full" for every type; [asMatrixArray] overwrites each of the
    nine entries of every matrix it gets from it. *)
Definition Matrix3Array_zeros (length : nat) : list rows :=
  replicate length (replicate 3 (replicate 3 Num.zero)).

(** [mats[:, i, j] = vals] *)
Definition set_entry (i j : nat) (mats : list rows) (vals : vec) : result (list rows) :=
  vals ← Np.assign (length mats) vals;
  Ok (zip_with (fun m x => <[i:=<[j:=x]> (m !!! i)]> m) mats vals).

(** [QuaternionArray.asMatrixArray] *)
Definition asMatrixArray (self : rows) : result (list rows) :=
  let x := Np.col 0 self in
  let y := Np.col 1 self in
  let z := Np.col 2 self in
  let w := Np.col 3 self in
  let xx := zip_with Num.mul x x in
  let xy := zip_with Num.mul x y in
  let xz := zip_with Num.mul x z in
  let xw := zip_with Num.mul x w in
  let yy := zip_with Num.mul y y in
  let yz := zip_with Num.mul y z in
  let yw := zip_with Num.mul y w in
  let zz := zip_with Num.mul z z in
  let zw := zip_with Num.mul z w in
  let num_rotations := length self in
  let mats := Matrix3Array_zeros num_rotations in
  let one_minus_twice (a b : vec) : vec :=
    (fun s => Num.sub Num.one (Num.mul Num.two s)) <$> zip_with Num.add a b in
  let twice_sum (a b : vec) : vec := Num.mul Num.two <$> zip_with Num.add a b in
  let twice_diff (a b : vec) : vec := Num.mul Num.two <$> zip_with Num.sub a b in
  mats ← set_entry 0 0 mats (one_minus_twice yy zz);
  mats ← set_entry 0 1 mats (twice_diff xy zw);
  mats ← set_entry 0 2 mats (twice_sum xz yw);
  mats ← set_entry 1 0 mats (twice_sum xy zw);
  mats ← set_entry 1 1 mats (one_minus_twice xx zz);
  mats ← set_entry 1 2 mats (twice_diff yz xw);
  mats ← set_entry 2 0 mats (twice_diff xz yw);
  mats ← set_entry 2 1 mats (twice_sum yz xw);
  mats ← set_entry 2 2 mats (one_minus_twice xx yy);
  Ok mats.

(** [Quaternion.asMatrix]: [self[None, ...].asMatrixArray()[0]] *)
Definition asMatrix (self : vec) : result rows :=
  mats ← asMatrixArray (Quaternion_asArray self);
  Np.getrow mats 0.

(** The product of a 3x3 matrix with a column vector. *)
Definition mat_vec (m : rows) (v : vec) : vec := (fun row => Np.rowdot row v) <$> m.

(** [VectorNArray.__mul__] with a [Quaternion] and with a [QuaternionArray]
    on the right. *)
Definition VectorNArray_mul_Quaternion (N : nat) (self : rows) (other : vec)
  : result rows :=
  exp ← VectorNArray_asVectorSize N self 3 Num.one;
  ret ← vectorquatproduct exp (Quaternion_asArray other);
  VectorNArray_asVectorSize 3 ret N Num.one.

Definition VectorNArray_mul_QuaternionArray (N : nat) (self other : rows)
  : result rows :=
  exp ← VectorNArray_asVectorSize N self 3 Num.one;
  ret ← vectorquatproduct exp other;
  VectorNArray_asVectorSize 3 ret N Num.one.

(** ** Dot products, lengths, distances and interpolation of vectors *)

(** [VectorN.__mul__] with a [VectorN] on the right: [self] is of the class
    of dimension [N], [other] of the class of dimension [M]. *)
Definition VectorN_mul_VectorN (N M : nat) (self other : vec) : result num :=
  if decide (N ≠ M) then Raise TypeError
  else Ok (Np.rowdot self other).

(** [VectorN.lengthSquared]: [(self * self).sum()] *)
Definition VectorN_lengthSquared (N : nat) (self : vec) : result num :=
  VectorN_mul_VectorN N N self self.

(** [VectorN.length] *)
Definition VectorN_length (N : nat) (self : vec) : result num :=
  Num.sqrt <$> VectorN_lengthSquared N self.

(** [VectorN.distance(other)] with a [VectorN]: [(self - other).length()] *)
Definition VectorN_distance (N : nat) (self other : vec) : result num :=
  d ← Np.broadcast2 Num.sub self other;
  VectorN_length N d.

(** [VectorNArray.distances(other)] with a [VectorNArray]; a [VectorN] is
    first made the batch of that one vector ([other[None, ...]]). *)
Definition VectorNArray_distances (self other : rows) : result vec :=
  d ← Np.broadcast2 (zip_with Num.sub) self other;
  Ok (VectorNArray_length d).

(** [VectorN.lerp(other, percent)] with a [VectorN] and a number:
    [((other - self) * percent) + self].  A number is none of the types
    [__mul__] tests for, so the product is numpy's, entry by entry. *)
Definition VectorN_lerp (self other : vec) (percent : num) : result vec :=
  d ← Np.broadcast2 Num.sub other self;
  Np.broadcast2 Num.add ((fun x => Num.mul x percent) <$> (d : vec)) self.

(** [VectorNArray.lerp(other, percent)], [percent] being a one-dimensional
    array: [((other - self) * percent[..., None]) + self]; the product is
    numpy's, of every row with its percentage. *)
Definition VectorNArray_lerp (self other : rows) (percent : vec) : result rows :=
  let other := arrayCompat other in
  let percent := arrayCompat percent in
  d ← Np.broadcast2 (zip_with Num.sub) other self;
  s ← Np.broadcast2 (fun (row : vec) p => (fun x => Num.mul x p) <$> row) d percent;
  Np.broadcast2 (zip_with Num.add) s self.

(** A vector of three reals. *)
Definition fin3 (v : R * R * R) : vec :=
  let '(x, y, z) := v in [Fin x; Fin y; Fin z].

(** The row of a quaternion of reals, and the quaternion with every
    component negated (which stands for the same rotation). *)
Definition real_row (q : rquat) : vec := quat_row (fin_quat q).

Definition quat_opp (q : rquat) : rquat :=
  let '(x, y, z, w) := q in (- x, - y, - z, - w)%R.

Definition sumsq3 (v : R * R * R) : R :=
  let '(x, y, z) := v in sumsq [x; y; z].

(** The angle in radians that [axisAngle] and [alignedRotations] work with. *)
Definition radians (degrees : bool) (a : R) : R :=
  if degrees then (a * (PI / 180))%R else a.

(** The vector [v + 2 (ws ∘ (u × v)) + 2 (u × (u × v))], for [u] the vector
    part of [q] and [ws ∘ _] the product component by component with the
    three numbers [ws].  It is [v] rotated by a unit quaternion [q] when
    all three of [ws] are the scalar part of [q]. *)
Definition rotated_with (ws : R * R * R) (q : rquat) (v : R * R * R) : R * R * R :=
  let '(w0, w1, w2) := ws in
  let '(x, y, z, _) := q in
  let '(vx, vy, vz) := v in
  let '(ax, ay, az) := (y * vz - z * vy, z * vx - x * vz, x * vy - y * vx)%R in
  let '(bx, by', bz) := (y * az - z * ay, z * ax - x * az, x * ay - y * ax)%R in
  (vx + 2 * w0 * ax + 2 * bx, vy + 2 * w1 * ay + 2 * by', vz + 2 * w2 * az + 2 * bz)%R.

(** The scalar part of a quaternion. *)
Definition scalar_part (q : rquat) : R := let '(_, _, _, w) := q in w.

(** * Properties *)

(** ** Arithmetic on [num] *)

Ltac num_cases :=
  repeat match goal with
         | x : num |- _ => destruct x
         end;
  cbn [Num.add Num.sub Num.mul Num.lift2 Num.lift1 Num.sum foldr Num.zero
       Num.one Num.two Num.sin Num.cos];
  try reflexivity; try (f_equal; lra).

Lemma sum3 (a b c : num) : Num.sum [a; b; c] = (a + b + c)%num.
Proof. num_cases. Qed.

(** ** Broadcasting *)

Lemma broadcast2_same_length {A B C} (f : A -> B -> C) xs ys :
  length xs = length ys -> Np.broadcast2 f xs ys = Ok (zip_with f xs ys).
Proof. intros H. unfold Np.broadcast2. by rewrite decide_True. Qed.

Lemma broadcast2_singleton_l {A B C} (f : A -> B -> C) x ys :
  Np.broadcast2 f [x] ys = Ok (f x <$> ys).
Proof.
  unfold Np.broadcast2. case_decide as H; [|done].
  destruct ys as [|y [|??]]; by simplify_eq/=.
Qed.

Lemma broadcast2_singleton_r {A B C} (f : A -> B -> C) xs y :
  Np.broadcast2 f xs [y] = Ok ((fun x => f x y) <$> xs).
Proof.
  unfold Np.broadcast2. case_decide as H.
  - destruct xs as [|x [|??]]; by simplify_eq/=.
  - by destruct xs as [|x [|??]].
Qed.

Lemma assign_same_length {A} m (vals : list A) :
  length vals = m -> Np.assign m vals = Ok vals.
Proof. intros H. unfold Np.assign. by rewrite decide_True. Qed.

Lemma bind_Ok {A B} (a : A) (k : A -> result B) : (Ok a ≫= k) = k a.
Proof. reflexivity. Qed.

Lemma bind_Raise {A B} e (k : A -> result B) : (Raise e ≫= k) = Raise e.
Proof. reflexivity. Qed.

Lemma bpairs_length {A B} (xs : list A) (ys : list B) :
  compatible (length xs) (length ys) ->
  length (bpairs xs ys) = max (length xs) (length ys).
Proof.
  unfold compatible, bpairs. intros H.
  destruct xs as [|x [|x' xs]], ys as [|y [|y' ys]]; simpl in *;
    rewrite ?length_fmap, ?length_zip_with; simpl; lia.
Qed.

Lemma broadcast2_pairs {A B A' B' C} (f : A' -> B' -> C) (a : A -> A') (b : B -> B')
    (xs : list A) (ys : list B) :
  compatible (length xs) (length ys) ->
  Np.broadcast2 f (a <$> xs) (b <$> ys)
  = Ok ((fun pr => f (a pr.1) (b pr.2)) <$> bpairs xs ys).
Proof.
  intros H. destruct xs as [|x [|x' xs]].
  - destruct ys; [done|]. exfalso. unfold compatible in H. simpl in H. lia.
  - change (a <$> [x]) with [a x]. rewrite broadcast2_singleton_l.
    simpl. by rewrite <- !list_fmap_compose.
  - destruct ys as [|y [|y' ys]].
    + exfalso. unfold compatible in H. simpl in H. lia.
    + change (b <$> [y]) with [b y]. rewrite broadcast2_singleton_r.
      unfold bpairs. by rewrite <- !list_fmap_compose.
    + assert (length (x :: x' :: xs) = length (y :: y' :: ys)) as Hl
        by (unfold compatible in H; simpl in *; lia).
      rewrite broadcast2_same_length by (by rewrite !length_fmap).
      unfold bpairs. f_equal.
      rewrite zip_with_fmap_l, zip_with_fmap_r, zip_with_zip.
      apply list_fmap_ext. by intros ? [??].
Qed.

Lemma bpairs_swap {A B} (xs : list A) (ys : list B) :
  bpairs ys xs = (fun pr => (pr.2, pr.1)) <$> bpairs xs ys.
Proof.
  unfold bpairs.
  destruct xs as [|x [|x' xs]], ys as [|y [|y' ys]]; try done;
    rewrite <- ?list_fmap_compose; try done.
  generalize (x' :: xs) (y' :: ys) x y. clear.
  intros l k x y. simpl. f_equal. revert k.
  induction l as [|a l IH]; intros [|b k]; simpl; try done. by f_equal.
Qed.

Lemma compatible_sym a b : compatible a b -> compatible b a.
Proof. unfold compatible. intuition. Qed.

Lemma broadcast2_pairs_swap {A B A' B' C} (f : B' -> A' -> C) (a : A -> A')
    (b : B -> B') (xs : list A) (ys : list B) :
  compatible (length xs) (length ys) ->
  Np.broadcast2 f (b <$> ys) (a <$> xs)
  = Ok ((fun pr => f (b pr.2) (a pr.1)) <$> bpairs xs ys).
Proof.
  intros H. rewrite broadcast2_pairs by (by apply compatible_sym).
  by rewrite bpairs_swap, <- list_fmap_compose.
Qed.

Lemma broadcast2_fmap {P A B C} (f : A -> B -> C) (g1 : P -> A) (g2 : P -> B) (l : list P) :
  Np.broadcast2 f (g1 <$> l) (g2 <$> l) = Ok ((fun x => f (g1 x) (g2 x)) <$> l).
Proof.
  rewrite broadcast2_same_length by (by rewrite !length_fmap).
  f_equal. induction l; simpl; by f_equal.
Qed.

Lemma set_col_fmap {P} j (d : P -> vec) (g : P -> num) (l : list P) :
  Np.set_col j (d <$> l) (g <$> l) = Ok ((fun x => <[j:=g x]> (d x)) <$> l).
Proof.
  unfold Np.set_col. rewrite assign_same_length by (by rewrite !length_fmap).
  rewrite bind_Ok. f_equal. induction l; simpl; by f_equal.
Qed.

Lemma mapM_assign_same_width (n : nat) (vals : rows) :
  wf_rows n vals -> mapM (Np.assign n) vals = Ok vals.
Proof.
  induction 1 as [|v vals Hv _ IH]; [done|].
  cbn [mapM]. rewrite assign_same_length by done. rewrite bind_Ok, IH.
  reflexivity.
Qed.

Lemma set_cols_upto_same (n : nat) (dst vals : rows) :
  length vals = length dst -> wf_rows n vals ->
  Np.set_cols_upto n dst vals = Ok (zip_with (fun r v => v ++ drop n r) dst vals).
Proof.
  intros Hl Hwf. unfold Np.set_cols_upto.
  rewrite assign_same_length by done. rewrite bind_Ok.
  by rewrite mapM_assign_same_width.
Qed.

Lemma set_cols_upto_fmap {P} n (d : P -> vec) (g : P -> vec) (l : list P) :
  (forall x, length (g x) = n) ->
  Np.set_cols_upto n (d <$> l) (g <$> l) = Ok ((fun x => g x ++ drop n (d x)) <$> l).
Proof.
  intros Hg. rewrite set_cols_upto_same.
  - f_equal. induction l; simpl; by f_equal.
  - by rewrite !length_fmap.
  - apply Forall_fmap, Forall_forall. intros x _. apply Hg.
Qed.

Lemma replicate_as_fmap {P A} (l : list P) (c : A) n :
  n = length l -> replicate n c = (fun _ => c) <$> l.
Proof. intros ->. induction l; simpl; by f_equal. Qed.

Lemma bind_eq {A B} (m : result A) (a : A) (k : A -> result B) r :
  m = Ok a -> k a = r -> (m ≫= k) = r.
Proof. by intros -> <-. Qed.

(** One step of a computation over the common pairing [l]: the head of the
    bind chain is one of the array operations applied to maps over [l]. *)
Ltac fmap_step :=
  eapply bind_eq;
  [ first [ apply broadcast2_fmap | apply set_col_fmap | apply set_cols_upto_fmap ]
  | cbv beta ].

Lemma quatquatProduct_pairs (p q : list quat) :
  compatible (length p) (length q) ->
  quatquatProduct (quat_row <$> p) (quat_row <$> q)
  = Ok ((fun pr => quat_row (hamilton pr.1 pr.2)) <$> bpairs p q).
Proof.
  intros Hc. unfold quatquatProduct, arrayCompat, Np.empty, Np.col, Np.cols_upto.
  cbv zeta.
  rewrite <- !list_fmap_compose.
  rewrite (replicate_as_fmap (bpairs p q) (replicate 4 NaN))
    by (by rewrite bpairs_length, !length_fmap).
  eapply bind_eq; [by apply broadcast2_pairs|cbv beta].
  eapply bind_eq; [by apply broadcast2_pairs|cbv beta].
  rewrite <- !list_fmap_compose.
  do 2 fmap_step.
  eapply bind_eq; [by apply broadcast2_pairs|cbv beta].
  eapply bind_eq; [by apply broadcast2_pairs_swap|cbv beta].
  eapply bind_eq; [by apply broadcast2_pairs|cbv beta].
  do 2 fmap_step.
  rewrite set_cols_upto_fmap by (by intros [[[[??]?]?] [[[??]?]?]]).
  f_equal. apply list_fmap_ext.
  intros i [[[[px py] pz] pw] [[[qx qy] qz] qw]] _. simpl.
  by rewrite <- (sum3 (px * qx)%num (py * qy)%num (pz * qz)%num).
Qed.

(** C5.  The Hamilton product of two batches, broadcast to the longer batch
    length, is per pair of rows [w = p.w*q.w − dot(p.xyz, q.xyz)] and
    [xyz = p.w*q.xyz + q.w*p.xyz + cross(p.xyz, q.xyz)]; and the identity
    quaternion (0,0,0,1) times itself is the identity quaternion. *)
Theorem quatquatProduct_hamilton :
  (forall p q : list quat,
     compatible (length p) (length q) ->
     quatquatProduct (quat_row <$> p) (quat_row <$> q)
     = Ok ((fun pr => quat_row (hamilton pr.1 pr.2)) <$> bpairs p q)
       /\ length (bpairs p q) = max (length p) (length q))
  /\ Quaternion_mul (fromComponents (Fin 0) (Fin 0) (Fin 0) (Fin 1))
                    (fromComponents (Fin 0) (Fin 0) (Fin 0) (Fin 1))
     = Ok (fromComponents (Fin 0) (Fin 0) (Fin 0) (Fin 1)).
Proof.
  split.
  - intros p q Hc. split; [by apply quatquatProduct_pairs|by apply bpairs_length].
  - unfold Quaternion_mul, Quaternion_asArray, fromComponents.
    pose proof (quatquatProduct_pairs [(Fin 0, Fin 0, Fin 0, Fin 1)]
                  [(Fin 0, Fin 0, Fin 0, Fin 1)]) as H.
    simpl in H. rewrite H by (by left). rewrite bind_Ok.
    unfold Np.getrow, Np.norm_index. simpl.
    repeat f_equal; lra.
Qed.

Lemma quatquatProduct_hamilton_witness :
  compatible 1 2
  /\ quatquatProduct [[Fin 0; Fin 0; Fin 1; Fin 0]]
       [[Fin 1; Fin 0; Fin 0; Fin 0]; [Fin 0; Fin 0; Fin 0; Fin 1]]
     = Ok [quat_row (hamilton (Fin 0, Fin 0, Fin 1, Fin 0) (Fin 1, Fin 0, Fin 0, Fin 0));
           quat_row (hamilton (Fin 0, Fin 0, Fin 1, Fin 0) (Fin 0, Fin 0, Fin 0, Fin 1))].
Proof.
  assert (compatible 1 2) as Hc by (right; left; split; [reflexivity | discriminate]).
  split; [exact Hc|].
  exact (proj1 (proj1 quatquatProduct_hamilton
                  [(Fin 0, Fin 0, Fin 1, Fin 0)]
                  [(Fin 1, Fin 0, Fin 0, Fin 0); (Fin 0, Fin 0, Fin 0, Fin 1)] Hc)).
Defined.

(** ** Axis-angle construction and rotation of a vector *)

Lemma div_two (x : R) : Num.div (Fin x) Num.two = Fin (x / 2).
Proof. unfold Num.div, Num.two. destruct (Req_dec_T 2 0); [lra|done]. Qed.

Lemma alignedRotations_value (name : string) (i : nat) (θ : R) (degrees : bool) :
  axis_name name i ->
  alignedRotations name [Fin θ] degrees
  = Ok [half_angle_quat i (if degrees then θ * (PI / 180) else θ)].
Proof.
  unfold axis_name. rewrite !elem_of_cons, elem_of_nil.
  intros H. unfold alignedRotations.
  assert (Np.str_index "xyz" (Np.lower name) = Ok i) as ->.
  { destruct H as [H|[H|[H|[H|[H|[H|[]]]]]]]; simplify_eq; reflexivity. }
  rewrite bind_Ok.
  assert (i < 3) as Hi by (destruct H as [H|[H|[H|[H|[H|[H|[]]]]]]]; simplify_eq; lia).
  destruct degrees; cbn -[Num.div]; rewrite div_two;
    destruct i as [|[|[|]]]; try lia; reflexivity.
Qed.

Lemma axisAngle_basis (i : nat) (a : R) (degrees : bool) :
  i < 3 ->
  axisAngle [basis i] [Fin a] degrees
  = Ok [half_angle_quat i (2 * (if degrees then a * (PI / 180) else a))].
Proof.
  intros Hi. unfold axisAngle, arrayCompat, half_angle_quat.
  set (r := if degrees then (a * (PI / 180))%R else a).
  replace (2 * r / 2)%R with r by lra. subst r.
  destruct degrees; destruct i as [|[|[|]]]; try lia;
    unfold Np.broadcast2, Np.set_cols_upto, Np.set_col, Np.assign; simpl;
    repeat (f_equal; try lra).
Qed.

Lemma axis_name_lt name i : axis_name name i -> i < 3.
Proof.
  unfold axis_name. rewrite !elem_of_cons, elem_of_nil.
  intros [H|[H|[H|[H|[H|[H|[]]]]]]]; simplify_eq; lia.
Qed.

(** C9.  [alignedRotations] on axis [a] and angle [θ] (converted from
    degrees first when asked) is the quaternion with [w = cos(θ/2)],
    component [a] equal to [sin(θ/2)] and zeros elsewhere; it is [axisAngle]
    on the basis vector of [a] with the angle [θ/2], and it is not
    [axisAngle] with the angle [θ]. *)
Theorem alignedRotations_half_angle (name : string) (i : nat) (θ : R) (degrees : bool) :
  axis_name name i ->
  alignedRotations name [Fin θ] degrees
  = Ok [half_angle_quat i (if degrees then θ * (PI / 180) else θ)]
  /\ alignedRotations name [Fin θ] degrees
     = axisAngle [basis i] [Fin (θ / 2)] degrees
  /\ alignedRotations name [Fin PI] false <> axisAngle [basis i] [Fin PI] false.
Proof.
  intros Hn. pose proof (axis_name_lt _ _ Hn) as Hi.
  rewrite !(alignedRotations_value name i), !(axisAngle_basis i) by done.
  split; [done|]. split.
  - do 3 f_equal. destruct degrees; lra.
  - unfold half_angle_quat. intros Heq.
    assert (cos (PI / 2) = cos (2 * PI / 2)) as Hc.
    { destruct i as [|[|[|]]]; try lia; by simplify_eq/=. }
    replace (2 * PI / 2)%R with PI in Hc by lra.
    rewrite cos_PI2, cos_PI in Hc. lra.
Qed.

Lemma alignedRotations_half_angle_witness :
  axis_name "z" 2
  /\ alignedRotations "z" [Fin 1] false = Ok [half_angle_quat 2 1].
Proof.
  assert (axis_name "z" 2) as Hn.
  { unfold axis_name. rewrite !elem_of_cons. right; right; left. reflexivity. }
  split; [exact Hn|].
  exact (proj1 (alignedRotations_half_angle "z" 2 1 false Hn)).
Defined.


Ltac np_unfold :=
  unfold VectorN_mul_QuaternionArray, VectorN_mul_Quaternion,
    VectorN_asVectorSize, VectorNArray_asVectorSize, VectorN_asArray,
    Quaternion_asArray, vectorquatproduct, axisAngle, arrayCompat,
    QuaternionArray_zeros,
    Np.mul_trailing, Np.broadcast2, Np.set_cols_upto, Np.set_col, Np.assign,
    Np.getrow, Np.setrow, Np.norm_index, Np.cols_upto, Np.col, Np.scale;
  cbv zeta.

(** The quaternion that [axisAngle] builds for the Z axis and the angle [θ]
    turns the X axis by [2θ]. *)
Lemma axisAngle_z_turns_twice (θ : R) :
  exists q,
    axisAngle [[Fin 0; Fin 0; Fin 1]] [Fin θ] false = Ok q
    /\ VectorN_mul_QuaternionArray 3 [Fin 1; Fin 0; Fin 0] q
       = Ok [[Fin (cos (2 * θ)); Fin (sin (2 * θ)); Fin 0]].
Proof.
  eexists. split; [np_unfold; simpl; reflexivity|].
  np_unfold. simpl. rewrite cos_2a, sin_2a.
  pose proof (sin2_cos2 θ) as H. unfold Rsqr in H.
  repeat (f_equal; try lra).
Qed.

(** C1.  The quaternion built by [axisAngle] from the axis [0,0,1] and the
    angle π leaves the vector [1,0,0] where it is: the product is [1,0,0],
    not [-1,0,0]. *)
Theorem axisAngle_pi_about_z :
  exists q,
    axisAngle [[Fin 0; Fin 0; Fin 1]] [Fin PI] false = Ok q
    /\ VectorN_mul_QuaternionArray 3 [Fin 1; Fin 0; Fin 0] q
       = Ok [[Fin 1; Fin 0; Fin 0]]
    /\ VectorN_mul_QuaternionArray 3 [Fin 1; Fin 0; Fin 0] q
       <> Ok [[Fin (-1); Fin 0; Fin 0]].
Proof.
  destruct (axisAngle_z_turns_twice PI) as (q & Hq & Hv).
  exists q. rewrite Hv, cos_2PI, sin_2PI. split; [done|]. split; [done|].
  intros [= H]. lra.
Qed.

(** ** Spherical interpolation *)

Lemma rowdot_fin (q1 q2 : quat) (c : R) :
  Np.rowdot (quat_row q1) (quat_row q2) = Fin c ->
  Forall Num.is_fin (quat_row q1) /\ Forall Num.is_fin (quat_row q2).
Proof.
  destruct q1 as [[[[x1|] [y1|]] [z1|]] [w1|]], q2 as [[[[x2|] [y2|]] [z2|]] [w2|]];
    intros H; try discriminate H.
  split; repeat constructor; by eexists.
Qed.

Lemma slerp_single (q1 q2 : quat) (t c : R) :
  Np.rowdot (quat_row q1) (quat_row q2) = Fin c ->
  (Rabs c < 1)%R ->
  slerp [quat_row q1] [quat_row q2] (Fin t)
  = Ok [zip_with Num.add
          (Np.scale (Fin (sin ((1 - t) * acos c) / sqrt (1 - c * c))) (quat_row q1))
          (Np.scale (Fin (sin (t * acos c) / sqrt (1 - c * c))) (quat_row q2))].
Proof.
  intros Hdot Hc. unfold slerp, arrayCompat. cbv zeta.
  rewrite broadcast2_singleton_l. rewrite bind_Ok.
  change (Np.rowdot (quat_row q1) <$> [quat_row q2])
    with [Np.rowdot (quat_row q1) (quat_row q2)].
  rewrite Hdot. cbn [fmap list_fmap zip_with].
  assert (Num.abs_ge_1 (Fin c) = false) as ->.
  { unfold Num.abs_ge_1. destruct (Rle_dec 1 (Rabs c)); [lra|done]. }
  apply Rabs_def2 in Hc as [Hc1 Hc2].
  assert (Num.acos (Fin c) = Fin (acos c)) as ->.
  { unfold Num.acos. destruct (Rlt_dec c (-1)); [lra|].
    destruct (Rlt_dec 1 c); [lra|done]. }
  assert (0 < 1 - c * c)%R as Hpos by nra.
  assert (Num.sqrt (Num.sub Num.one (Num.mul (Fin c) (Fin c))) = Fin (sqrt (1 - c * c))) as ->.
  { unfold Num.sqrt. cbn. destruct (Rlt_dec (1 - c * c) 0); [lra|done]. }
  pose proof (sqrt_lt_R0 _ Hpos) as Hs.
  cbn [Num.sin Num.lift1 Num.mul Num.sub Num.lift2 Num.one].
  unfold Num.div.
  destruct (Req_dec_T (sqrt (1 - c * c)) 0) as [Hz|_]; [lra|].
  unfold Np.mul_trailing. rewrite !bind_Ok.
  by rewrite broadcast2_same_length.
Qed.



(** Where the clamp acts ([|cosHalf| >= 1]), both ratios are [0/0]: the
    result of [slerp] is not a number, whatever [tVal] is. *)
Lemma slerp_clamped (q1 q2 : quat) (t c : R) :
  Np.rowdot (quat_row q1) (quat_row q2) = Fin c ->
  (1 <= Rabs c)%R ->
  slerp [quat_row q1] [quat_row q2] (Fin t) = Ok [[NaN; NaN; NaN; NaN]].
Proof.
  intros Hdot Hc. unfold slerp, arrayCompat. cbv zeta.
  rewrite broadcast2_singleton_l. rewrite bind_Ok.
  change (Np.rowdot (quat_row q1) <$> [quat_row q2])
    with [Np.rowdot (quat_row q1) (quat_row q2)].
  rewrite Hdot. cbn [fmap list_fmap zip_with].
  assert (Num.abs_ge_1 (Fin c) = true) as ->.
  { unfold Num.abs_ge_1. destruct (Rle_dec 1 (Rabs c)); [done|lra]. }
  assert (Num.sqrt (Num.sub Num.one (Num.mul Num.one Num.one)) = Fin 0) as ->.
  { unfold Num.sqrt. cbn. destruct (Rlt_dec (1 - 1 * 1) 0); [lra|].
    f_equal. replace (1 - 1 * 1)%R with 0%R by lra. apply sqrt_0. }
  assert (forall x, Num.div x (Fin 0) = NaN) as Hdiv.
  { intros [x|]; [|done]. unfold Num.div. destruct (Req_dec_T 0 0); [done|lra]. }
  rewrite !Hdiv. unfold Np.mul_trailing. rewrite !bind_Ok.
  rewrite broadcast2_same_length by done.
  by destruct q1 as [[[[x1|] [y1|]] [z1|]] [w1|]], q2 as [[[[x2|] [y2|]] [z2|]] [w2|]].
Qed.



(** ** Resizing *)

Lemma dimension_cases n : dimension n -> n = 2 \/ n = 3 \/ n = 4.
Proof. unfold dimension. rewrite !elem_of_cons, elem_of_nil. tauto. Qed.

Lemma VECTOR_BY_SIZE_dimension n : dimension n -> VECTOR_BY_SIZE n = Ok n.
Proof. intros H. unfold VECTOR_BY_SIZE. by rewrite decide_True. Qed.

Lemma VectorN_asVectorSize_resized (N M : nat) (pad : num) (v : vec) :
  dimension M -> length v = N ->
  VectorN_asVectorSize N v M pad = Ok (resized N M pad v).
Proof.
  intros HM Hv. unfold VectorN_asVectorSize, resized.
  case_decide as Heq; [done|].
  rewrite VECTOR_BY_SIZE_dimension by done. rewrite bind_Ok. f_equal.
  unfold VectorN_full. case_decide as Hlt.
  - rewrite Nat.min_l by lia. rewrite drop_replicate, Nat.sub_diag. simpl.
    by rewrite app_nil_r.
  - rewrite Nat.min_r by lia. rewrite take_ge by lia.
    by rewrite drop_replicate.
Qed.

Lemma zip_with_replicate_r {A B C} (f : A -> B -> C) (l : list A) (c : B) :
  zip_with f l (replicate (length l) c) = (fun x => f x c) <$> l.
Proof. induction l; simpl; by f_equal. Qed.

Lemma VectorNArray_asVectorSize_resized (N M : nat) (pad : num) (a : rows) :
  dimension M -> Forall (fun r => length r = N) a ->
  VectorNArray_asVectorSize N a M pad = Ok (resized N M pad <$> a).
Proof.
  intros HM Ha. unfold VectorNArray_asVectorSize.
  case_decide as Heq.
  - f_equal. rewrite <- (list_fmap_id a) at 1. apply list_fmap_ext.
    intros i r _. unfold resized. by rewrite decide_True.
  - unfold VECTOR_ARRAY_BY_SIZE. rewrite VECTOR_BY_SIZE_dimension by done.
    rewrite bind_Ok. f_equal. unfold VectorNArray_full.
    rewrite zip_with_replicate_r. apply Forall_fmap_ext.
    eapply Forall_impl; [exact Ha|]. intros r Hr. simpl in Hr.
    pose proof (VectorN_asVectorSize_resized N M pad r HM Hr) as H.
    unfold VectorN_asVectorSize in H. rewrite decide_False in H by done.
    rewrite VECTOR_BY_SIZE_dimension in H by done. rewrite bind_Ok in H.
    by injection H.
Qed.

Lemma resized_length (N M : nat) (pad : num) (v : vec) :
  length v = N -> length (resized N M pad v) = M.
Proof.
  intros Hv. unfold resized. repeat case_decide.
  - lia.
  - rewrite length_take. lia.
  - rewrite length_app, length_replicate. lia.
Qed.

Lemma resized_round_trip (N n : nat) (p p' : num) (v : vec) :
  length v = N ->
  resized n N p' (resized N n p v)
  = if decide (N <= n) then v else take n v ++ replicate (N - n) p'.
Proof.
  intros Hv. unfold resized. repeat case_decide; try lia; try done.
  subst N. by rewrite take_app_length.
Qed.

(** C6.  [asVectorSize(M)] on a vector or a vector array of dimension [N]
    returns the same components when [M = N], the first [M] when [M < N],
    and the [N] components followed by the pad value when [M > N].  So
    [v.asVectorSize(n).asVectorSize(N)] is [v] when [n >= N], and when
    [n < N] it is the first [n] components of [v] followed by the pad
    value. *)
Theorem asVectorSize_round_trip (N M n : nat) (pad pad' : num) (v : vec) (a : rows) :
  dimension N -> dimension M -> dimension n ->
  length v = N -> Forall (fun r => length r = N) a ->
  VectorN_asVectorSize N v M pad = Ok (resized N M pad v)
  /\ VectorNArray_asVectorSize N a M pad = Ok (resized N M pad <$> a)
  /\ (u ← VectorN_asVectorSize N v n pad; VectorN_asVectorSize n u N pad')
     = Ok (if decide (N <= n) then v else take n v ++ replicate (N - n) pad')
  /\ (b ← VectorNArray_asVectorSize N a n pad; VectorNArray_asVectorSize n b N pad')
     = Ok ((fun r => if decide (N <= n) then r
                     else take n r ++ replicate (N - n) pad') <$> a).
Proof.
  intros HN HM Hn Hv Ha.
  split; [by apply VectorN_asVectorSize_resized|].
  split; [by apply VectorNArray_asVectorSize_resized|].
  split.
  - rewrite VectorN_asVectorSize_resized by done. rewrite bind_Ok.
    rewrite VectorN_asVectorSize_resized by (by try apply resized_length).
    by rewrite resized_round_trip.
  - rewrite VectorNArray_asVectorSize_resized by done. rewrite bind_Ok.
    rewrite VectorNArray_asVectorSize_resized.
    + f_equal. rewrite <- list_fmap_compose. apply Forall_fmap_ext.
      eapply Forall_impl; [exact Ha|]. intros r Hr. simpl in *.
      by apply resized_round_trip.
    + done.
    + apply Forall_fmap. eapply Forall_impl; [exact Ha|].
      intros r Hr. simpl in *. by apply resized_length.
Qed.

Lemma asVectorSize_round_trip_witness :
  VectorN_asVectorSize 3 [Fin 1; Fin 2; Fin 3] 2 (Fin 1) = Ok [Fin 1; Fin 2]
  /\ (u ← VectorN_asVectorSize 3 [Fin 1; Fin 2; Fin 3] 4 (Fin 1);
      VectorN_asVectorSize 4 u 3 (Fin 9)) = Ok [Fin 1; Fin 2; Fin 3].
Proof.
  assert (dimension 3) as H3 by (unfold dimension; rewrite !elem_of_cons; tauto).
  assert (dimension 2) as H2 by (unfold dimension; rewrite !elem_of_cons; tauto).
  assert (dimension 4) as H4 by (unfold dimension; rewrite !elem_of_cons; tauto).
  pose proof (asVectorSize_round_trip 3 2 4 (Fin 1) (Fin 9) [Fin 1; Fin 2; Fin 3] []
                H3 H2 H4 eq_refl (Forall_nil_2 _)) as (Ha & _ & Hb & _).
  split; [exact Ha | exact Hb].
Defined.


(** ** Parallel transport *)

Lemma wf_rows_lookup N a i r : wf_rows N a -> a !! i = Some r -> length r = N.
Proof. intros H Hi. by eapply (Forall_lookup_1 _ _ _ _ H Hi). Qed.

Lemma cross_length a b : length a = 3 -> length b = 3 -> length (Np.cross a b) = 3.
Proof.
  intros Ha Hb.
  destruct a as [|? [|? [|? [|]]]], b as [|? [|? [|? [|]]]]; done.
Qed.

Lemma wf_zip_with (f : vec -> vec -> vec) (a b : rows) :
  (forall x y, length x = 3 -> length y = 3 -> length (f x y) = 3) ->
  wf_rows 3 a -> wf_rows 3 b -> wf_rows 3 (zip_with f a b).
Proof.
  unfold wf_rows. intros Hf Ha. revert b.
  induction Ha as [|x a Hx Ha IH]; intros b Hb; destruct Hb as [|y b Hy Hb];
    simpl; constructor; auto.
Qed.

Lemma adjacent_differences_wf (self : rows) :
  wf_rows 3 self ->
  exists adj, adjacent_differences self = Ok adj
              /\ length adj = length self - 1 /\ wf_rows 3 adj.
Proof.
  intros Hwf. unfold adjacent_differences.
  rewrite broadcast2_same_length
    by (rewrite length_drop, length_take; lia).
  eexists. split; [done|]. split.
  - rewrite length_zip_with, length_drop, length_take. lia.
  - apply wf_zip_with.
    + intros x y Hx Hy. rewrite length_zip_with. lia.
    + by apply Forall_drop.
    + by apply Forall_take.
Qed.

Lemma VectorNArray_cross_wf (a b : rows) :
  length a = length b -> wf_rows 3 a -> wf_rows 3 b ->
  exists c, VectorNArray_cross a b = Ok c /\ length c = length a /\ wf_rows 3 c.
Proof.
  intros Hl Ha Hb. unfold VectorNArray_cross, arrayCompat. cbv zeta.
  rewrite broadcast2_same_length by done.
  eexists. split; [done|]. split.
  - rewrite length_zip_with. lia.
  - apply wf_zip_with; [apply cross_length|done..].
Qed.

Lemma VectorNArray_normal_length (a : rows) :
  length (VectorNArray_normal a) = length a.
Proof.
  unfold VectorNArray_normal, VectorNArray_length, VectorNArray_lengthSquared.
  rewrite length_zip_with, !length_fmap. lia.
Qed.

Lemma VectorNArray_angle_ok (a b : rows) :
  length a = length b ->
  exists angles, VectorNArray_angle a b = Ok angles /\ length angles = length a.
Proof.
  intros Hl. unfold VectorNArray_angle, VectorNArray_mul_VectorNArray, arrayCompat.
  cbv zeta.
  rewrite broadcast2_same_length by (by rewrite !VectorNArray_normal_length).
  rewrite bind_Ok. eexists. split; [done|].
  rewrite length_fmap, length_zip_with, !VectorNArray_normal_length. lia.
Qed.

Lemma axisAngle_ok (axes : rows) (angles : vec) :
  length axes = length angles -> wf_rows 3 axes ->
  exists quats, axisAngle axes angles false = Ok quats
                /\ length quats = length axes /\ wf_rows 4 quats.
Proof.
  intros Hl Hwf. unfold axisAngle, arrayCompat, QuaternionArray_zeros. cbv zeta.
  rewrite broadcast2_same_length by (by rewrite length_fmap).
  rewrite bind_Ok.
  rewrite set_cols_upto_same.
  2:{ rewrite length_zip_with, length_fmap, length_replicate. lia. }
  2:{ unfold wf_rows. clear Hl. revert angles.
      induction Hwf as [|ax axes Hax Hwf IH]; intros [|an angles]; simpl;
        try constructor; auto.
      unfold Np.scale. by rewrite length_fmap. }
  rewrite bind_Ok. unfold Np.set_col.
  rewrite assign_same_length
    by (rewrite !length_zip_with, !length_fmap, length_replicate; lia).
  rewrite bind_Ok. eexists. split; [done|]. split.
  - rewrite !length_zip_with, !length_fmap, length_replicate. lia.
  - unfold wf_rows. clear Hl. revert angles.
    induction Hwf as [|ax axes Hax Hwf IH]; intros [|an angles]; simpl;
      try constructor; auto.
    rewrite length_insert, length_app. unfold Np.scale.
    rewrite length_fmap. simpl. lia.
Qed.

Lemma getrow_ok {A} (a : list A) (i : nat) (r : A) :
  a !! i = Some r -> Np.getrow a (Z.of_nat i) = Ok r.
Proof.
  intros Hi. pose proof (lookup_lt_Some _ _ _ Hi) as Hlt.
  unfold Np.getrow, Np.norm_index.
  destruct (Z.ltb_spec (Z.of_nat i) 0); [lia|].
  rewrite decide_True by lia. rewrite bind_Ok, Nat2Z.id. by rewrite Hi.
Qed.

Lemma getrow_out_of_range {A} (a : list A) (i : nat) :
  length a <= i -> Np.getrow a (Z.of_nat i) = Raise IndexError.
Proof.
  intros Hi. unfold Np.getrow, Np.norm_index.
  destruct (Z.ltb_spec (Z.of_nat i) 0); [lia|].
  by rewrite decide_False by lia.
Qed.

Lemma setrow_ok (a : rows) (i : nat) (old v : vec) :
  a !! i = Some old -> length v = length old ->
  Np.setrow a (Z.of_nat i) v = Ok (<[i:=v]> a).
Proof.
  intros Hi Hv. pose proof (lookup_lt_Some _ _ _ Hi) as Hlt.
  unfold Np.setrow, Np.norm_index.
  destruct (Z.ltb_spec (Z.of_nat i) 0); [lia|].
  rewrite decide_True by lia. rewrite bind_Ok, Nat2Z.id, Hi.
  by rewrite assign_same_length.
Qed.

Lemma VectorN_mul_Quaternion_ok (v q : vec) :
  length v = 3 -> length q = 4 ->
  exists r, VectorN_mul_Quaternion 3 v q = Ok r /\ length r = 3.
Proof.
  intros Hv Hq.
  destruct v as [|a [|b [|c [|]]]], q as [|x [|y [|z [|w [|]]]]]; try done.
  eexists. split; [np_unfold; simpl; reflexivity|done].
Qed.

(** The loop asks for [quats[i]] up to [i = len(self) - 2], one past the
    last rotation: it stops there with an [IndexError]. *)
Lemma transport_loop_IndexError (quats : rows) :
  wf_rows 4 quats ->
  forall (m s : nat) (out : rows),
    wf_rows 3 out -> length quats + 2 <= length out ->
    s <= length quats -> length quats < s + m ->
    transport_loop quats (seq s m) out = Raise IndexError.
Proof.
  intros Hq m. induction m as [|m IH]; intros s out Hout Hlen Hs Hm; [lia|].
  cbn [seq transport_loop].
  destruct (lookup_lt_is_Some_2 out s) as [oi Hoi]; [lia|].
  rewrite (getrow_ok _ _ _ Hoi), bind_Ok.
  destruct (decide (s = length quats)) as [->|Hne].
  - by rewrite getrow_out_of_range.
  - destruct (lookup_lt_is_Some_2 quats s) as [qi Hqi]; [lia|].
    rewrite (getrow_ok _ _ _ Hqi), bind_Ok.
    destruct (VectorN_mul_Quaternion_ok oi qi) as (v & -> & Hv).
    { by eapply wf_rows_lookup. }
    { by eapply wf_rows_lookup. }
    rewrite bind_Ok.
    destruct (lookup_lt_is_Some_2 out (S s)) as [old Hold]; [lia|].
    replace (Z.of_nat s + 1)%Z with (Z.of_nat (S s)) by lia.
    rewrite (setrow_ok _ _ old) by
      (done || (rewrite Hv; symmetry; by eapply wf_rows_lookup)).
    rewrite bind_Ok. apply IH; try lia.
    + apply Forall_insert; done.
    + rewrite length_insert. lia.
Qed.

(** On an array of 3-vectors of any length [parallelTransport] ends in an
    [IndexError]: from [out[0]] when there is no point, from [out[-2]] when
    there is one, from [quats[len(self) - 2]] in the loop otherwise. *)
Lemma parallelTransport_IndexError (self : rows) (upv : vec) (inverse : bool) :
  wf_rows 3 self -> length upv = 3 ->
  parallelTransport self upv inverse = Raise IndexError.
Proof.
  intros Hwf Hupv. unfold parallelTransport.
  destruct (adjacent_differences_wf self Hwf) as (adj & -> & Hadj & Hadjwf).
  rewrite bind_Ok.
  assert (length (drop 1 adj) = length (take (length adj - 1) adj)) as Hl
    by (rewrite length_drop, length_take; lia).
  destruct (VectorNArray_cross_wf _ _ Hl) as (binorms & -> & Hbl & Hbwf);
    [by apply Forall_drop|by apply Forall_take|].
  rewrite bind_Ok.
  destruct (VectorNArray_angle_ok _ _ Hl) as (angles & -> & Hal).
  rewrite bind_Ok.
  destruct (axisAngle_ok binorms
              (if inverse then Np.scale (Fin (-1)) angles else angles))
    as (quats & -> & Hql & Hqwf); [|done|].
  { destruct inverse; unfold Np.scale; rewrite ?length_fmap; lia. }
  rewrite bind_Ok. change (VECTOR_ARRAY_BY_SIZE 3) with (Ok (A:=nat) 3).
  rewrite bind_Ok. unfold VectorNArray_zeros.
  rewrite length_drop in Hbl.
  destruct self as [|p0 [|p1 self]].
  - reflexivity.
  - destruct upv as [|a [|b [|c [|]]]]; try done.
  - set (out := replicate _ _).
    rewrite (setrow_ok out 0 (replicate 3 Num.zero)) by done.
    rewrite bind_Ok. simpl length.
    rewrite (transport_loop_IndexError quats Hqwf); [done|..].
    + apply Forall_insert; [|done]. subst out. simpl.
      repeat constructor. by apply Forall_replicate.
    + rewrite length_insert. subst out. simpl. rewrite length_replicate.
      simpl in Hadj. lia.
    + lia.
    + simpl in Hadj. lia.
Qed.

(** The spec's example: the points (0,0,0), (1,0,0), (1,1,0) are at
    distances 1 and 1. *)
Lemma adjacentLengths_example :
  adjacentLengths
    [[Fin 0; Fin 0; Fin 0]; [Fin 1; Fin 0; Fin 0]; [Fin 1; Fin 1; Fin 0]]
  = Ok [Fin 1; Fin 1].
Proof.
  unfold adjacentLengths, adjacent_differences, VectorNArray_length,
    VectorNArray_lengthSquared, Np.broadcast2, Np.rowdot.
  simpl.
  repeat match goal with
         | |- context [Rlt_dec ?x ?y] =>
             destruct (Rlt_dec x y) as [Hlt|_]; [exfalso; lra|]
         end.
  repeat f_equal; (transitivity (sqrt 1); [f_equal; lra | apply sqrt_1]).
Qed.






(** ** Indexing and the type of its result *)

Lemma slice_positions_full (len : nat) :
  exists ks, slice_positions len None None None = Ok ks /\ length ks = len.
Proof.
  unfold slice_positions. simpl.
  eexists. split; [reflexivity|].
  rewrite length_fmap, length_seq.
  destruct (Z.ltb_spec 0 (Z.of_nat len)).
  - rewrite Z.div_1_r. lia.
  - simpl. lia.
Qed.

(** [arr[:, j]] on an array of shape (B, N) has shape (B,). *)
Lemma getitem_column_shape (self : ndarray) (B N : nat) (j : Z) :
  shape self = [B; N] ->
  (- Z.of_nat N <= j < Z.of_nat N)%Z ->
  exists d, ndarray_getitem self (Tuple [full_slice; IInt j])
            = Ok {| shape := [B]; data := d |}.
Proof.
  intros Hs Hj. unfold ndarray_getitem. rewrite Hs.
  cbn [length expand_ellipsis consumes full_slice fmap result_fmap bind].
  rewrite bind_Ok. unfold full_slice. cbn [select].
  destruct (slice_positions_full B) as (ks & -> & Hks). rewrite bind_Ok.
  assert (exists k, Np.norm_index N j = Ok k) as [k ->].
  { unfold Np.norm_index. destruct (Z.ltb_spec j 0);
      rewrite decide_True by lia; by eexists. }
  rewrite !bind_Ok. cbn [fst snd]. rewrite Hks. by eexists.
Qed.

Lemma QuaternionArray_getitem_column (self : ndarray) (B : nat) (j : Z) :
  shape self = [B; 4] -> (-4 <= j < 4)%Z ->
  exists d, QuaternionArray_getitem self (Tuple [full_slice; IInt j])
            = Ok (View Ndarray {| shape := [B]; data := d |}).
Proof.
  intros Hs Hj. unfold QuaternionArray_getitem.
  destruct (getitem_column_shape self B 4 j Hs) as [d ->]; [lia|].
  rewrite bind_Ok. by exists d.
Qed.

Lemma VectorNArray_getitem_column (N : nat) (self : ndarray) (B : nat) (j : Z) :
  shape self = [B; N] -> (- Z.of_nat N <= j < Z.of_nat N)%Z ->
  exists d, VectorNArray_getitem N self (Tuple [full_slice; IInt j])
            = Ok (View (if decide (B = N) then VectorN N else Ndarray)
                    {| shape := [B]; data := d |}).
Proof.
  intros Hs Hj. unfold VectorNArray_getitem.
  destruct (getitem_column_shape self B N j Hs) as [d ->]; [lia|].
  rewrite bind_Ok. exists d. simpl. by case_decide.
Qed.

(** [asArray] ([self[None, ...]]) of a quaternion is the batch of that one
    quaternion, typed as a [QuaternionArray]. *)
Lemma Quaternion_asArray_getitem (x y z w : num) :
  Quaternion_getitem {| shape := [4]; data := [x; y; z; w] |}
    (Tuple [INewaxis; IEllipsis])
  = Ok (View QuaternionArray (of_rows 4 (Quaternion_asArray [x; y; z; w]))).
Proof. reflexivity. Qed.

(** A row of a [Vector3Array] is a [Vector3], a row of a [QuaternionArray] a
    [Quaternion]. *)
Lemma getitem_row_example :
  VectorNArray_getitem 3
    (of_rows 3 [[Fin 1; Fin 2; Fin 3]; [Fin 4; Fin 5; Fin 6]]) (Item (IInt (-1)))
  = Ok (View (VectorN 3) {| shape := [3]; data := [Fin 4; Fin 5; Fin 6] |})
  /\ QuaternionArray_getitem
       (of_rows 4 [[Fin 0; Fin 0; Fin 0; Fin 1]]) (Item (IInt 0))
     = Ok (View Quaternion {| shape := [4]; data := [Fin 0; Fin 0; Fin 0; Fin 1] |}).
Proof. split; reflexivity. Qed.

(** C2.  On a [VectorNArray] that holds exactly [N] vectors, the column
    [arr[:, j]] comes back typed as a [VectorN], not as an untyped buffer. *)
Theorem VectorNArray_column_is_retyped (N : nat) (self : ndarray) (j : Z) :
  shape self = [N; N] -> (- Z.of_nat N <= j < Z.of_nat N)%Z ->
  exists d, VectorNArray_getitem N self (Tuple [full_slice; IInt j])
            = Ok (View (VectorN N) {| shape := [N]; data := d |}).
Proof.
  intros Hs Hj.
  destruct (VectorNArray_getitem_column N self N j Hs Hj) as [d Hd].
  exists d. by rewrite decide_True in Hd.
Qed.

(** [Vector3Array([[1,2,3],[4,5,6],[7,8,9]])[:, 0]] *)
Lemma VectorNArray_column_is_retyped_witness :
  exists d, VectorNArray_getitem 3
              (of_rows 3 [[Fin 1; Fin 2; Fin 3]; [Fin 4; Fin 5; Fin 6];
                          [Fin 7; Fin 8; Fin 9]])
              (Tuple [full_slice; IInt 0])
            = Ok (View (VectorN 3) {| shape := [3]; data := d |}).
Proof.
  apply VectorNArray_column_is_retyped.
  - reflexivity.
  - simpl. lia.
Defined.

Lemma VectorNArray_column_example :
  VectorNArray_getitem 3
    (of_rows 3 [[Fin 1; Fin 2; Fin 3]; [Fin 4; Fin 5; Fin 6]; [Fin 7; Fin 8; Fin 9]])
    (Tuple [full_slice; IInt 0])
  = Ok (View (VectorN 3) {| shape := [3]; data := [Fin 1; Fin 4; Fin 7] |}).
Proof. reflexivity. Qed.

(** ** The scalar constructors *)

Lemma pyobj_ind (P : pyobj -> Prop) :
  (forall x, P (PyFloat x)) ->
  (forall items, Forall P items -> P (PyList items)) ->
  forall o, P o.
Proof.
  intros Hf Hl. fix IH 1. intros [x|items]; [apply Hf|].
  apply Hl. induction items as [|o items IHitems]; constructor; [apply IH|done].
Qed.

Lemma asarray_PyList (items : list pyobj) :
  asarray (PyList items)
  = (subs ← asarray_each items;
     match subs with
     | [] => Ok {| shape := [0]; data := [] |}
     | a :: _ =>
         if decide (Forall (fun b => shape b = shape a) subs)
         then Ok {| shape := length subs :: shape a;
                    data := concat (data <$> subs) |}
         else Raise (ValueError Inhomogeneous)
     end).
Proof. reflexivity. Qed.

(** What [np.asarray] accepts has as many entries as the nested list has
    numbers, and [size] is that count. *)
Lemma asarray_size (o : pyobj) (a : ndarray) :
  asarray o = Ok a -> size a = element_count o /\ length (data a) = element_count o.
Proof.
  revert a. induction o as [x|items IH] using pyobj_ind; intros a Ha.
  - by simplify_eq/=.
  - rewrite asarray_PyList in Ha.
    destruct (asarray_each items) as [subs|e] eqn:Hsubs; [|done].
    rewrite bind_Ok in Ha.
    assert (Forall2 (fun o b => size b = element_count o
                                /\ length (data b) = element_count o) items subs) as Hall.
    { clear Ha. revert subs Hsubs.
      induction IH as [|o items Ho IH IHitems]; intros subs Hsubs.
      - simpl in Hsubs. simplify_eq. constructor.
      - simpl in Hsubs. destruct (asarray o) as [b|] eqn:Hb; [|done].
        rewrite bind_Ok in Hsubs.
        destruct (asarray_each items) as [bs|] eqn:Hbs; [|done].
        rewrite bind_Ok in Hsubs. simplify_eq.
        constructor; [by apply Ho|by apply IHitems]. }
    destruct subs as [|b subs].
    + apply Forall2_nil_inv_r in Hall as ->. by simplify_eq/=.
    + remember (b :: subs) as bs eqn:Hbs. remember (shape b) as sh eqn:Hshb.
      clear Hbs Hshb IH Hsubs b subs.
      case_decide as Hsh; [|done]. injection Ha as <-. unfold size. cbn [shape data].
      revert Hsh.
      induction Hall as [|o c items bs [Hsz Hlen] Hall IH]; intros Hsh.
      * simpl. lia.
      * apply Forall_cons in Hsh as [Hc Hsh]. specialize (IH Hsh).
        cbn [length foldr element_count fmap list_fmap concat].
        rewrite length_app. cbn [foldr] in IH.
        unfold size in Hsz. rewrite Hc in Hsz.
        destruct IH as [IH1 IH2]. split; [|cbn in *; lia].
        cbn in *. lia.
Qed.

(** C10.  For an input that numpy can turn into an array, [Quaternion] and
    [VectorN] raise the size-mismatch error exactly when the number of
    entries is not 4 (not [N]); otherwise the input is accepted whatever its
    nesting, and the constructed value keeps the array with its shape:
    [[1,2,3,4]] gives a [Quaternion] of shape (1, 4). *)
Theorem constructor_size_check (N : nat) (o : pyobj) (a : ndarray) :
  asarray o = Ok a ->
  (Quaternion_new (Some o) = Raise (ValueError (Initializer 4))
   <-> element_count o <> 4)
  /\ (element_count o = 4 -> Quaternion_new (Some o) = Ok (View Quaternion a))
  /\ (VectorN_new N (Some o) = Raise (ValueError (Initializer N))
      <-> element_count o <> N)
  /\ (element_count o = N -> VectorN_new N (Some o) = Ok (View (VectorN N) a))
  /\ Quaternion_new
       (Some (PyList [PyList [PyFloat (Fin 1); PyFloat (Fin 2);
                              PyFloat (Fin 3); PyFloat (Fin 4)]]))
     = Ok (View Quaternion
             {| shape := [1; 4]; data := [Fin 1; Fin 2; Fin 3; Fin 4] |}).
Proof.
  intros Ha. destruct (asarray_size o a Ha) as [Hsz _].
  unfold Quaternion_new, VectorN_new. rewrite Ha, !bind_Ok, Hsz.
  repeat split; try (intros H; case_decide; done); try reflexivity.
Qed.

Lemma constructor_size_check_witness :
  Quaternion_new
    (Some (PyList [PyList [PyFloat (Fin 1); PyFloat (Fin 2)];
                   PyList [PyFloat (Fin 3); PyFloat (Fin 4)]]))
  = Ok (View Quaternion
          {| shape := [2; 2]; data := [Fin 1; Fin 2; Fin 3; Fin 4] |}).
Proof.
  refine (proj1 (proj2 (constructor_size_check 3 _ _ _)) _); reflexivity.
Defined.

(** ** In-place and copying growth of arrays *)

Lemma np_resize_length (a : rows) (n : nat) : length (np_resize a n) = n.
Proof.
  unfold np_resize. case_decide.
  - by rewrite length_replicate.
  - by rewrite length_fmap, length_seq.
Qed.

Lemma take_np_resize (a : rows) (k : nat) :
  take (length a) (np_resize a (length a + k)) = a.
Proof.
  unfold np_resize. case_decide as H.
  - destruct a as [|r a]; [done|]. simpl in H. destruct H as [H|H]; [done|lia].
  - rewrite <- fmap_take, take_seq, Nat.min_l by lia.
    apply list_eq. intros i. rewrite list_lookup_fmap.
    destruct (decide (i < length a)) as [Hi|Hi].
    + rewrite lookup_seq_lt by done. simpl.
      rewrite Nat.mod_small by done.
      symmetry. by apply list_lookup_lookup_total_lt.
    + rewrite lookup_seq_ge by lia. simpl. symmetry. apply lookup_ge_None. lia.
Qed.

Lemma np_resize_wf (a : rows) (n : nat) : wf_rows 4 a -> wf_rows 4 (np_resize a n).
Proof.
  intros Hwf. unfold np_resize. case_decide as H.
  - by apply Forall_replicate.
  - apply Forall_fmap, Forall_forall. intros i _. simpl.
    assert (i mod length a < length a) as Hlt.
    { apply Nat.mod_upper_bound. destruct a; [|done]. naive_solver. }
    apply (Forall_lookup_1 _ _ _ _ Hwf (list_lookup_lookup_total_lt _ _ Hlt)).
Qed.

Lemma insert_last {A} (l : list A) (x : A) (n : nat) :
  length l = S n -> <[n:=x]> l = take n l ++ [x].
Proof.
  intros Hl. rewrite <- (take_drop n l) at 1.
  rewrite insert_app_r_alt by (rewrite length_take; lia).
  rewrite length_take, Nat.min_l, Nat.sub_diag by lia.
  destruct (drop n l) as [|y [|]] eqn:Hd; try done.
  - apply (f_equal length) in Hd. rewrite length_drop in Hd. simpl in Hd. lia.
  - apply (f_equal length) in Hd. rewrite length_drop in Hd. simpl in Hd. lia.
Qed.

Lemma setrow_last (a : rows) (old v : vec) (n : nat) :
  length a = S n -> a !! n = Some old -> length v = length old ->
  Np.setrow a (-1) v = Ok (take n a ++ [v]).
Proof.
  intros Hl Hold Hv. unfold Np.setrow, Np.norm_index. simpl.
  rewrite decide_True by lia. rewrite bind_Ok.
  replace (Z.to_nat (-1 + Z.of_nat (length a))) with n by lia.
  rewrite Hold, assign_same_length by done. rewrite bind_Ok.
  by rewrite insert_last.
Qed.

Ltac run_M :=
  unfold VectorNArray_append, VectorNArray_extend, QuaternionArray_appended,
    QuaternionArray_extended, ndarray_resize, deref, assign_buf, alloc, lift;
  unfold mbind, M_bind, mret, M_ret.

Lemma appended_copies (h : store) (self : loc) (a : pyarray) (q : vec) :
  h !! self = Some a -> wf_rows 4 (buf a) -> length q = 4 ->
  QuaternionArray_appended self q h
  = (Ok (fresh (dom h)), <[fresh (dom h):=PyArray (buf a ++ [q]) false]> h).
Proof.
  intros Hself Hwf Hq. run_M. rewrite Hself. rewrite lookup_insert_eq.
  cbn [buf resizable].
  pose proof (np_resize_length (buf a) (length (buf a) + 1)) as Hlen.
  destruct (lookup_lt_is_Some_2 (np_resize (buf a) (length (buf a) + 1))
              (length (buf a))) as [old Hold]; [lia|].
  rewrite (setrow_last _ old q (length (buf a))); [| lia | done |].
  - rewrite lookup_insert_eq, insert_insert_eq. cbn [resizable].
    by rewrite take_np_resize.
  - rewrite Hq. symmetry.
    by apply (wf_rows_lookup 4 _ _ _ (np_resize_wf _ _ Hwf) Hold).
Qed.

Lemma set_tail_grown (a pad v : rows) :
  v <> [] -> length pad = length v ->
  set_tail (a ++ pad) (length v) v = Ok (a ++ v).
Proof.
  intros Hv Hpad. unfold set_tail.
  rewrite decide_False by (by destruct v).
  rewrite length_app.
  replace (length a + length pad - length v) with (length a) by lia.
  rewrite assign_same_length by lia. rewrite bind_Ok.
  by rewrite take_app_length.
Qed.

Lemma extended_copies (h : store) (self : loc) (a : pyarray) (qs : rows) :
  h !! self = Some a -> qs <> [] ->
  QuaternionArray_extended self qs h
  = (Ok (fresh (dom h)), <[fresh (dom h):=PyArray (buf a ++ qs) false]> h).
Proof.
  intros Hself Hqs. run_M. rewrite Hself. rewrite lookup_insert_eq.
  cbn [buf resizable].
  pose proof (np_resize_length (buf a) (length (buf a) + length qs)) as Hlen.
  rewrite <- (take_drop (length (buf a)) (np_resize _ _)).
  rewrite take_np_resize, set_tail_grown; [|done|rewrite length_drop; lia].
  by rewrite lookup_insert_eq, insert_insert_eq.
Qed.

Lemma M_bind_Ok {A B} (m : M A) (k : A -> M B) (h h1 : store) (a : A) :
  m h = (Ok a, h1) -> (m ≫= k) h = k a h1.
Proof. intros H. unfold mbind, M_bind. by rewrite H. Qed.

Lemma M_bind_Raise {A B} (m : M A) (k : A -> M B) (h h1 : store) (e : exn) :
  m h = (Raise e, h1) -> (m ≫= k) h = (Raise e, h1).
Proof. intros H. unfold mbind, M_bind. by rewrite H. Qed.

Lemma deref_Some (h : store) (l : loc) (a : pyarray) :
  h !! l = Some a -> deref l h = (Ok a, h).
Proof. intros H. unfold deref. by rewrite H. Qed.

Lemma assign_buf_Some (h : store) (l : loc) (a : pyarray) (b : rows) :
  h !! l = Some a -> assign_buf l b h = (Ok (), <[l:=PyArray b (resizable a)]> h).
Proof. intros H. unfold assign_buf. by rewrite H. Qed.

Lemma ndarray_resize_grow (N : nat) (h : store) (self : loc) (a : pyarray) (k : nat) :
  h !! self = Some a ->
  ndarray_resize N self (length (buf a) + k) h
  = if resizable a
    then (Ok (), <[self:=PyArray (buf a ++ replicate k (replicate N Num.zero)) true]> h)
    else (Raise (ValueError CannotResize), h).
Proof.
  intros Hself. unfold ndarray_resize.
  rewrite (M_bind_Ok _ _ _ _ _ (deref_Some _ _ _ Hself)).
  destruct (resizable a) eqn:Hres; [|done].
  rewrite (assign_buf_Some _ _ _ _ Hself), Hres.
  rewrite take_ge by lia.
  by replace (length (buf a) + k - length (buf a)) with k by lia.
Qed.

Lemma append_in_place (N : nat) (h : store) (self : loc) (a : pyarray) (v : vec) :
  h !! self = Some a -> length v = N ->
  VectorNArray_append N self v h
  = if resizable a
    then (Ok None, <[self:=PyArray (buf a ++ [v]) true]> h)
    else (Raise (ValueError CannotResize), h).
Proof.
  intros Hself Hv. unfold VectorNArray_append.
  rewrite (M_bind_Ok _ _ _ _ _ (deref_Some _ _ _ Hself)).
  pose proof (ndarray_resize_grow N h self a 1 Hself) as Hr.
  destruct (resizable a) eqn:Hres.
  - rewrite (M_bind_Ok _ _ _ _ _ Hr).
    erewrite M_bind_Ok by (apply deref_Some, lookup_insert_eq).
    cbn [buf replicate].
    erewrite M_bind_Ok.
    2:{ unfold lift. f_equal.
        apply (setrow_last _ (replicate N Num.zero) v (length (buf a))).
        - rewrite length_app. simpl. lia.
        - by rewrite lookup_app_r, Nat.sub_diag by lia.
        - by rewrite length_replicate. }
    erewrite M_bind_Ok by (apply assign_buf_Some, lookup_insert_eq).
    unfold mret, M_ret. cbn [resizable].
    by rewrite insert_insert_eq, take_app_length.
  - by rewrite (M_bind_Raise _ _ _ _ _ Hr).
Qed.

Lemma extend_in_place (N : nat) (h : store) (self : loc) (a : pyarray) (vs : rows) :
  h !! self = Some a -> vs <> [] ->
  VectorNArray_extend N self vs h
  = if resizable a
    then (Ok None, <[self:=PyArray (buf a ++ vs) true]> h)
    else (Raise (ValueError CannotResize), h).
Proof.
  intros Hself Hvs. unfold VectorNArray_extend.
  rewrite (M_bind_Ok _ _ _ _ _ (deref_Some _ _ _ Hself)).
  pose proof (ndarray_resize_grow N h self a (length vs) Hself) as Hr.
  destruct (resizable a) eqn:Hres.
  - rewrite (M_bind_Ok _ _ _ _ _ Hr).
    erewrite M_bind_Ok by (apply deref_Some, lookup_insert_eq).
    cbn [buf].
    erewrite M_bind_Ok.
    2:{ unfold lift. f_equal. apply set_tail_grown; [done|].
        by rewrite length_replicate. }
    erewrite M_bind_Ok by (apply assign_buf_Some, lookup_insert_eq).
    unfold mret, M_ret. cbn [resizable].
    by rewrite insert_insert_eq.
  - by rewrite (M_bind_Raise _ _ _ _ _ Hr).
Qed.




(** * More properties of the two files *)

(** ** The algebra of the quaternion product *)

Lemma Quaternion_mul_hamilton (p q : quat) :
  Quaternion_mul (quat_row p) (quat_row q) = Ok (quat_row (hamilton p q)).
Proof.
  unfold Quaternion_mul, Quaternion_asArray.
  pose proof (quatquatProduct_pairs [p] [q]) as H. simpl in H.
  rewrite H by (by left). reflexivity.
Qed.

Ltac quat_ring :=
  repeat match goal with
         | q : rquat |- _ => destruct q as [[[? ?] ?] ?]
         end;
  cbn [fin_quat hamilton quat_row Num.add Num.sub Num.mul Num.lift2];
  repeat (f_equal; try ring).


(** X2.  The quaternion that [Quaternion()] builds, (0,0,0,1), is neutral for
    the product on both sides. *)
Theorem Quaternion_mul_identity (q : rquat) :
  exists e,
    Quaternion_new None = Ok (View Quaternion {| shape := [4]; data := e |})
    /\ Quaternion_mul (quat_row (fin_quat q)) e = Ok (quat_row (fin_quat q))
    /\ Quaternion_mul e (quat_row (fin_quat q)) = Ok (quat_row (fin_quat q)).
Proof.
  exists (quat_row (fin_quat (0, 0, 0, 1)%R)). split; [|split].
  - unfold Quaternion_new. rewrite bind_Ok. reflexivity.
  - rewrite Quaternion_mul_hamilton. f_equal. quat_ring.
  - rewrite Quaternion_mul_hamilton. f_equal. quat_ring.
Qed.

Lemma Quaternion_lengthSquared_fin (q : rquat) :
  Quaternion_lengthSquared (quat_row (fin_quat q)) = Ok (Fin (quat_sumsq q)).
Proof. destruct q as [[[x y] z] w]. reflexivity. Qed.



(** ** Lengths and normalisation *)

Lemma rowdot_fin_vec (xs : list R) :
  Np.rowdot (fin_vec xs) (fin_vec xs) = Fin (sumsq xs).
Proof.
  unfold Np.rowdot, fin_vec. induction xs as [|x xs IH]; [done|].
  cbn [fmap list_fmap zip_with Num.sum foldr sumsq] in *.
  unfold Num.sum in IH. by rewrite IH.
Qed.

Lemma sumsq_nonneg (xs : list R) : (0 <= sumsq xs)%R.
Proof. induction xs as [|x xs IH]; simpl; nra. Qed.

Lemma sumsq_scale (xs : list R) (L : R) :
  L <> 0%R ->
  sumsq ((fun x => x / L)%R <$> xs) = (sumsq xs / (L * L))%R.
Proof.
  intros HL. induction xs as [|x xs IH].
  - simpl. by field.
  - rewrite fmap_cons.
    change (sumsq ((x / L)%R :: ((fun x => x / L)%R <$> xs)))
      with ((x / L) * (x / L) + sumsq ((fun x => x / L)%R <$> xs))%R.
    rewrite IH.
    change (sumsq (x :: xs)) with (x * x + sumsq xs)%R. by field.
Qed.

Lemma sqrt_fin (x : R) : (0 <= x)%R -> Num.sqrt (Fin x) = Fin (sqrt x).
Proof. intros Hx. unfold Num.sqrt. destruct (Rlt_dec x 0); [exfalso; lra|done]. Qed.

Lemma normal_rows (a : rows) :
  VectorNArray_normal a
  = (fun r => (fun x => Num.div x (Num.sqrt (Np.rowdot r r))) <$> r) <$> a.
Proof.
  unfold VectorNArray_normal, VectorNArray_length, VectorNArray_lengthSquared.
  rewrite <- list_fmap_compose, zip_with_fmap_r.
  induction a as [|r a IH]; [done|]. cbn [zip_with fmap list_fmap] in *.
  by rewrite IH.
Qed.

Lemma normal_row_fin (xs : list R) :
  sumsq xs <> 0%R ->
  (fun x => Num.div x (Num.sqrt (Np.rowdot (fin_vec xs) (fin_vec xs)))) <$> fin_vec xs
  = fin_vec ((fun x => x / sqrt (sumsq xs))%R <$> xs).
Proof.
  intros Hs. pose proof (sumsq_nonneg xs) as Hpos.
  rewrite rowdot_fin_vec, sqrt_fin by done.
  assert (sqrt (sumsq xs) <> 0%R) as HL.
  { intros H0. apply sqrt_eq_0 in H0; done. }
  unfold fin_vec. rewrite <- !list_fmap_compose. apply list_fmap_ext.
  intros i x _. simpl. unfold Num.div.
  destruct (Req_dec_T (sqrt (sumsq xs)) 0); done.
Qed.

Lemma sumsq_normal (xs : list R) :
  sumsq xs <> 0%R ->
  sumsq ((fun x => x / sqrt (sumsq xs))%R <$> xs) = 1%R.
Proof.
  intros Hs. pose proof (sumsq_nonneg xs) as Hpos.
  assert (sqrt (sumsq xs) <> 0%R) as HL.
  { intros H0. apply sqrt_eq_0 in H0; done. }
  rewrite sumsq_scale by done. rewrite sqrt_sqrt by done. by field.
Qed.

Lemma normal_fin (a : list (list R)) :
  Forall (fun xs => sumsq xs <> 0%R) a ->
  VectorNArray_normal (fin_vec <$> a)
  = (fun xs => fin_vec ((fun x => x / sqrt (sumsq xs))%R <$> xs)) <$> a.
Proof.
  intros Ha. rewrite normal_rows, <- list_fmap_compose. apply Forall_fmap_ext.
  eapply Forall_impl; [exact Ha|]. intros xs Hxs. simpl.
  by apply normal_row_fin.
Qed.

Lemma normal_length_one (a : list (list R)) :
  Forall (fun xs => sumsq xs <> 0%R) a ->
  VectorNArray_length (VectorNArray_normal (fin_vec <$> a))
  = replicate (length a) (Fin 1).
Proof.
  intros Ha. rewrite normal_fin by done.
  unfold VectorNArray_length, VectorNArray_lengthSquared.
  rewrite <- !list_fmap_compose.
  rewrite (replicate_as_fmap a (Fin 1)) by done.
  apply Forall_fmap_ext. eapply Forall_impl; [exact Ha|].
  intros xs Hxs. simpl. rewrite rowdot_fin_vec, sumsq_normal by done.
  rewrite sqrt_fin by lra. by rewrite sqrt_1.
Qed.







(** ** Rotation of vectors *)

Ltac rot_eval :=
  unfold asMatrix, asMatrixArray, set_entry, Matrix3Array_zeros, mat_vec,
    VectorN_lengthSquared, VectorN_mul_VectorN, Np.rowdot;
  np_unfold; simpl.






(** X10.  A vector of dimension 4 is rotated through its first three
    components, and the fourth component of the result is always 1; a vector
    of dimension 2 is rotated as (x, y, 1) and cut back to two components. *)
Theorem VectorN_mul_Quaternion_resizes (x y z w : num) (qx qy qz qw : num) :
  VectorN_mul_Quaternion 4 [x; y; z; w] [qx; qy; qz; qw]
  = (r ← VectorN_mul_Quaternion 3 [x; y; z] [qx; qy; qz; qw]; Ok (r ++ [Fin 1]))
  /\ VectorN_mul_Quaternion 2 [x; y] [qx; qy; qz; qw]
     = (r ← VectorN_mul_Quaternion 3 [x; y; Fin 1] [qx; qy; qz; qw]; Ok (take 2 r)).
Proof. split; reflexivity. Qed.

Lemma vectorquatproduct_batch_shape (v q : rows) :
  length q <> 1 -> length q <> 3 ->
  vectorquatproduct v q = Raise (ValueError Broadcast).
Proof.
  intros H1 H3. unfold vectorquatproduct, arrayCompat. cbv zeta.
  assert (forall uv : rows,
    Np.mul_trailing 3 uv (Np.scale Num.two (Np.col 3 q))
    = Raise (ValueError Broadcast)) as Hmul.
  { intros uv. unfold Np.mul_trailing, Np.scale, Np.col.
    destruct q as [|q0 [|q1 q]]; [| done |].
    - reflexivity.
    - cbn [fmap list_fmap]. rewrite decide_False; [done|].
      cbn [length]. rewrite !length_fmap. simpl in H3. lia. }
  destruct (Np.broadcast2 Np.cross (Np.cols_upto 3 q) v) as [uv|e] eqn:Huv.
  - rewrite bind_Ok.
    destruct (Np.broadcast2 Np.cross (Np.cols_upto 3 q) uv) as [uuv|e'] eqn:Huuv.
    + by rewrite bind_Ok, Hmul.
    + unfold Np.broadcast2 in Huuv. repeat case_match; by simplify_eq.
  - unfold Np.broadcast2 in Huv. repeat case_match; by simplify_eq.
Qed.

(** X11.  A batch of vectors times a batch of quaternions raises numpy's
    broadcasting [ValueError] unless the batch of quaternions has exactly 1
    or exactly 3 rows: [uv *= 2 * q[:, 3]] lines the scalar parts up with
    the 3 columns of [uv], not with its rows. *)
Theorem VectorNArray_mul_QuaternionArray_shape (N : nat) (self other : rows) :
  length other <> 1 -> length other <> 3 ->
  VectorNArray_mul_QuaternionArray N self other = Raise (ValueError Broadcast).
Proof.
  intros H1 H3. unfold VectorNArray_mul_QuaternionArray.
  assert (exists e, VectorNArray_asVectorSize N self 3 Num.one = Ok e) as [e ->].
  { unfold VectorNArray_asVectorSize. case_decide; eauto. }
  rewrite bind_Ok. by rewrite vectorquatproduct_batch_shape.
Qed.

Lemma VectorNArray_mul_QuaternionArray_shape_witness :
  VectorNArray_mul_QuaternionArray 3
    [[Fin 1; Fin 0; Fin 0]; [Fin 0; Fin 1; Fin 0]]
    [[Fin 0; Fin 0; Fin 0; Fin 1]; [Fin 0; Fin 0; Fin 0; Fin 1]]
  = Raise (ValueError Broadcast).
Proof. apply VectorNArray_mul_QuaternionArray_shape; simpl; lia. Defined.

(** ** Dot products, distances, interpolation *)

Lemma mul_comm (a b : num) : Num.mul a b = Num.mul b a.
Proof. destruct a, b; simpl; try done. f_equal. ring. Qed.

Lemma rowdot_comm (a b : vec) : Np.rowdot a b = Np.rowdot b a.
Proof.
  unfold Np.rowdot. f_equal. revert b.
  induction a as [|x a IH]; intros [|y b]; simpl; try done.
  by rewrite mul_comm, IH.
Qed.

(** X12.  The dot product of two vectors does not depend on their order, and
    it is a [TypeError] exactly when the two classes differ in dimension. *)
Theorem VectorN_mul_VectorN_comm (N M : nat) (a b : vec) :
  VectorN_mul_VectorN N M a b = VectorN_mul_VectorN M N b a
  /\ (VectorN_mul_VectorN N M a b = Raise TypeError <-> N <> M).
Proof.
  unfold VectorN_mul_VectorN. split.
  - repeat case_decide; try done; try congruence. by rewrite rowdot_comm.
  - case_decide; split; try done.
Qed.

Lemma zip_with_fin (f : R -> R -> R) (xs ys : list R) :
  zip_with (Num.lift2 f) (fin_vec xs) (fin_vec ys) = fin_vec (zip_with f xs ys).
Proof.
  unfold fin_vec. revert ys.
  induction xs as [|x xs IH]; intros [|y ys]; simpl; try done. by rewrite IH.
Qed.

Lemma fin_vec_length (xs : list R) : length (fin_vec xs) = length xs.
Proof. unfold fin_vec. by rewrite length_fmap. Qed.

Lemma VectorN_distance_fin (N : nat) (xs ys : list R) :
  length xs = length ys ->
  VectorN_distance N (fin_vec xs) (fin_vec ys)
  = Ok (Fin (sqrt (sumsq (zip_with Rminus xs ys)))).
Proof.
  intros Hl. unfold VectorN_distance, VectorN_length, VectorN_lengthSquared,
    VectorN_mul_VectorN.
  rewrite broadcast2_same_length by (by rewrite !fin_vec_length).
  rewrite bind_Ok. rewrite decide_False by (intros H; by apply H).
  change Num.sub with (Num.lift2 Rminus). rewrite zip_with_fin, rowdot_fin_vec.
  rewrite <- sqrt_fin by apply sumsq_nonneg. reflexivity.
Qed.

Lemma sumsq_diff_comm (xs ys : list R) :
  sumsq (zip_with Rminus xs ys) = sumsq (zip_with Rminus ys xs).
Proof.
  revert ys. induction xs as [|x xs IH]; intros [|y ys]; simpl; try done.
  rewrite IH. ring.
Qed.

Lemma sumsq_diff_self (xs : list R) : sumsq (zip_with Rminus xs xs) = 0%R.
Proof. induction xs as [|x xs IH]; simpl; [done|]. rewrite IH. ring. Qed.

(** X13.  The distance between two vectors is the same in both directions,
    and the distance of a vector to itself is 0. *)
Theorem VectorN_distance_symmetric (N : nat) (xs ys : list R) :
  length xs = length ys ->
  VectorN_distance N (fin_vec xs) (fin_vec ys)
  = VectorN_distance N (fin_vec ys) (fin_vec xs)
  /\ VectorN_distance N (fin_vec xs) (fin_vec xs) = Ok (Fin 0).
Proof.
  intros Hl. rewrite !VectorN_distance_fin by done. split.
  - by rewrite sumsq_diff_comm.
  - by rewrite sumsq_diff_self, sqrt_0.
Qed.

Lemma VectorN_distance_symmetric_witness :
  VectorN_distance 2 [Fin 1; Fin 2] [Fin 4; Fin 6]
  = VectorN_distance 2 [Fin 4; Fin 6] [Fin 1; Fin 2].
Proof.
  exact (proj1 (VectorN_distance_symmetric 2 [1; 2]%R [4; 6]%R eq_refl)).
Defined.

Lemma scale_fin_vec (t : R) (ds : list R) :
  (fun x => Num.mul x (Fin t)) <$> fin_vec ds = fin_vec ((fun d => (d * t)%R) <$> ds).
Proof. unfold fin_vec. induction ds as [|d ds IH]; [done|]. simpl. f_equal. apply IH. Qed.

Lemma VectorN_lerp_fin (xs ys : list R) (t : R) :
  length xs = length ys ->
  VectorN_lerp (fin_vec xs) (fin_vec ys) (Fin t)
  = Ok (fin_vec (zip_with (fun x y => ((y - x) * t + x)%R) xs ys)).
Proof.
  intros Hl. unfold VectorN_lerp.
  rewrite broadcast2_same_length by (by rewrite !fin_vec_length).
  rewrite bind_Ok.
  change Num.sub with (Num.lift2 Rminus). rewrite zip_with_fin.
  rewrite scale_fin_vec.
  rewrite broadcast2_same_length
    by (rewrite !fin_vec_length, length_fmap, length_zip_with; lia).
  change Num.add with (Num.lift2 Rplus). rewrite zip_with_fin. do 2 f_equal.
  clear Hl. revert ys. induction xs as [|x xs IH]; intros [|y ys]; simpl; try done.
  by rewrite IH.
Qed.



(** X15.  For at least two points of one dimension, [adjacentLengths] has
    one entry less than there are points, and its entry [i] is the distance
    from point [i + 1] to point [i]. *)
Theorem adjacentLengths_distances (N : nat) (self : rows) :
  2 <= length self -> wf_rows N self ->
  exists ds, adjacentLengths self = Ok ds
    /\ length ds = length self - 1
    /\ forall i p q, self !! i = Some p -> self !! S i = Some q ->
         exists d, ds !! i = Some d /\ VectorN_distance N q p = Ok d.
Proof.
  intros Hlen Hwf. unfold adjacentLengths, adjacent_differences.
  rewrite decide_False by lia.
  rewrite broadcast2_same_length
    by (rewrite length_drop, length_take; lia).
  rewrite bind_Ok. eexists. split; [reflexivity|]. split.
  - unfold VectorNArray_length, VectorNArray_lengthSquared.
    rewrite !length_fmap, length_zip_with, length_drop, length_take. lia.
  - intros i p q Hp Hq.
    pose proof (wf_rows_lookup _ _ _ _ Hwf Hp) as Hlp.
    pose proof (wf_rows_lookup _ _ _ _ Hwf Hq) as Hlq.
    unfold VectorN_distance, VectorN_length, VectorN_lengthSquared,
      VectorN_mul_VectorN.
    rewrite broadcast2_same_length by congruence. rewrite bind_Ok.
    rewrite decide_False by (intros H; by apply H).
    eexists. split; [|reflexivity].
    unfold VectorNArray_length, VectorNArray_lengthSquared.
    rewrite !list_lookup_fmap, lookup_zip_with, lookup_drop.
    replace (1 + i) with (S i) by lia. rewrite Hq. simpl.
    rewrite lookup_take_lt by (apply lookup_lt_Some in Hq; lia).
    by rewrite Hp.
Qed.

Lemma adjacentLengths_distances_witness :
  exists ds, adjacentLengths [[Fin 0; Fin 0]; [Fin 3; Fin 4]] = Ok ds
    /\ length ds = 1
    /\ forall i p q, [[Fin 0; Fin 0]; [Fin 3; Fin 4]] !! i = Some p ->
         [[Fin 0; Fin 0]; [Fin 3; Fin 4]] !! S i = Some q ->
         exists d, ds !! i = Some d /\ VectorN_distance 2 q p = Ok d.
Proof.
  apply (adjacentLengths_distances 2 [[Fin 0; Fin 0]; [Fin 3; Fin 4]]).
  - simpl. lia.
  - repeat constructor.
Defined.


(** ** Angles and the quaternions of [axisAngle] and [alignedRotations] *)

Lemma acos_fin_1 : Num.acos (Fin 1) = Fin 0.
Proof.
  unfold Num.acos. destruct (Rlt_dec 1 (-1)); [exfalso; lra|].
  destruct (Rlt_dec 1 1); [exfalso; lra|]. by rewrite acos_1.
Qed.

Lemma acos_fin_opp_1 : Num.acos (Fin (Ropp 1)) = Fin PI.
Proof.
  unfold Num.acos. destruct (Rlt_dec (Ropp 1) (-1)); [exfalso; lra|].
  destruct (Rlt_dec 1 (Ropp 1)); [exfalso; lra|].
  f_equal. rewrite acos_opp, acos_1. lra.
Qed.

Lemma rowdot_real_row (q : rquat) :
  Np.rowdot (real_row q) (real_row q) = Fin (quat_sumsq q).
Proof. by destruct q as [[[x y] z] w]. Qed.

Lemma rowdot_real_row_opp (q : rquat) :
  Np.rowdot (real_row q) (real_row (quat_opp q)) = Fin (- quat_sumsq q).
Proof.
  destruct q as [[[x y] z] w]. unfold Np.rowdot, quat_sumsq, sumsq. simpl.
  f_equal. ring.
Qed.





Lemma str_index_xyz (s : string) (i : nat) :
  Np.str_index "xyz" s = Ok i -> i < 3.
Proof.
  cbn. intros H. repeat (case_match; simplify_eq/=); lia.
Qed.



(** ** Indexing: rows and slices of a batch *)

Lemma concat_row (N : nat) (a : rows) (k : nat) (r : vec) :
  wf_rows N a -> a !! k = Some r ->
  (fun o => concat a !!! (k * N + o)) <$> seq 0 N = r.
Proof.
  intros Hwf. revert k. induction Hwf as [|r0 a Hr0 Hwf IH]; intros k Hk; [done|].
  destruct k as [|k]; simpl in Hk.
  - simplify_eq. apply list_eq. intros i. rewrite list_lookup_fmap.
    destruct (decide (i < length r)) as [Hi|Hi].
    + rewrite lookup_seq_lt by done. simpl.
      rewrite lookup_total_app_l by done.
      symmetry. by apply list_lookup_lookup_total_lt.
    + rewrite lookup_seq_ge by lia. simpl. symmetry. apply lookup_ge_None. lia.
  - etrans; [|apply (IH k Hk)]. apply list_fmap_ext. intros i o _. simpl.
    rewrite lookup_total_app_r by lia. f_equal. lia.
Qed.

Lemma ndarray_getitem_row (N : nat) (a : rows) (i : Z) :
  wf_rows N a ->
  ndarray_getitem (of_rows N a) (Item (IInt i))
  = r ← Np.getrow a i; Ok {| shape := [N]; data := r |}.
Proof.
  intros Hwf. unfold ndarray_getitem, Np.getrow, of_rows.
  cbn [shape data length expand_ellipsis consumes fmap result_fmap bind select].
  rewrite !bind_Ok. cbn [select foldr].
  destruct (Np.norm_index (length a) i) as [k|e] eqn:Hk; [|done].
  rewrite !bind_Ok. cbn [fst snd].
  assert (k < length a) as Hlt.
  { unfold Np.norm_index in Hk. case_decide; simplify_eq. lia. }
  destruct (lookup_lt_is_Some_2 a k Hlt) as [r Hr]. rewrite Hr, bind_Ok.
  rewrite <- list_fmap_compose, Nat.mul_1_r. f_equal. f_equal.
  by apply (concat_row N a k r).
Qed.

(** X20.  Indexing a batch of [N]-vectors with one integer gives that row as
    a [VectorN] of the same dimension, counting from the end for a negative
    index, and is an [IndexError] outside [-len, len); a batch of
    quaternions gives a [Quaternion] in the same way. *)
Theorem getitem_row (N : nat) (a : rows) (i : Z) :
  wf_rows N a ->
  (VectorNArray_getitem N (of_rows N a) (Item (IInt i))
   = r ← Np.getrow a i; Ok (View (VectorN N) {| shape := [N]; data := r |}))
  /\ (N = 4 ->
      QuaternionArray_getitem (of_rows N a) (Item (IInt i))
      = r ← Np.getrow a i; Ok (View Quaternion {| shape := [4]; data := r |}))
  /\ ((- Z.of_nat (length a) <= i < Z.of_nat (length a))%Z ->
      exists r, Np.getrow a i = Ok r)
  /\ (~ (- Z.of_nat (length a) <= i < Z.of_nat (length a))%Z ->
      Np.getrow a i = Raise IndexError).
Proof.
  intros Hwf. unfold VectorNArray_getitem, QuaternionArray_getitem.
  rewrite ndarray_getitem_row by done. repeat split.
  - destruct (Np.getrow a i) as [r|e]; [|done]. rewrite !bind_Ok.
    cbn [shape VectorNArray_getReturnType view_as]. by rewrite decide_True.
  - intros ->. destruct (Np.getrow a i) as [r|e]; [|done]. rewrite !bind_Ok.
    reflexivity.
  - intros Hi. unfold Np.getrow, Np.norm_index.
    destruct (Z.ltb_spec i 0); rewrite decide_True by lia; rewrite bind_Ok.
    + destruct (lookup_lt_is_Some_2 a (Z.to_nat (i + Z.of_nat (length a)))) as [r ->];
        [lia|by eexists].
    + destruct (lookup_lt_is_Some_2 a (Z.to_nat i)) as [r ->]; [lia|by eexists].
  - intros Hi. unfold Np.getrow, Np.norm_index.
    destruct (Z.ltb_spec i 0); by rewrite decide_False by lia.
Qed.

Lemma getitem_row_witness :
  VectorNArray_getitem 2 (of_rows 2 [[Fin 1; Fin 2]; [Fin 3; Fin 4]]) (Item (IInt (-1)))
  = Ok (View (VectorN 2) {| shape := [2]; data := [Fin 3; Fin 4] |}).
Proof.
  refine (proj1 (getitem_row 2 [[Fin 1; Fin 2]; [Fin 3; Fin 4]] (-1) _)).
  repeat constructor.
Defined.

Ltac ltb_cases :=
  repeat match goal with
         | |- context [(?x <? ?y)%Z] => destruct (Z.ltb_spec x y)
         end.

Lemma slice_positions_bound (len : nat) (start stop step : option Z) (ks : list nat) :
  slice_positions len start stop step = Ok ks -> Forall (fun k => k < len) ks.
Proof.
  unfold slice_positions. cbv zeta.
  set (n := Z.of_nat len). set (st := default 1%Z step).
  case_decide as Hz; [done|]. case_decide as Hpos.
  - set (a := from_option _ 0%Z start). set (b := from_option _ n stop).
    assert (0 <= a <= n)%Z as Ha.
    { subst a n. destruct start; simpl; ltb_cases; lia. }
    assert (0 <= b <= n)%Z as Hb.
    { subst b n. destruct stop; simpl; ltb_cases; lia. }
    intros [= <-]. apply Forall_fmap, Forall_forall. intros j Hj%elem_of_seq.
    simpl. destruct (Z.ltb_spec a b) as [Hab|Hab]; [|simpl in Hj; lia].
    pose proof (Z.mul_div_le (b - a - 1) st Hpos) as Hq.
    assert (Z.of_nat j <= (b - a - 1) / st)%Z as Hjq by lia.
    assert (Z.of_nat j * st <= b - a - 1)%Z by nia.
    subst n. nia.
  - set (a := from_option _ (n - 1)%Z start). set (b := from_option _ (-1)%Z stop).
    assert (-1 <= a <= n - 1)%Z as Ha.
    { subst a n. destruct start; simpl; ltb_cases; lia. }
    assert (-1 <= b <= n - 1)%Z as Hb.
    { subst b n. destruct stop; simpl; ltb_cases; lia. }
    intros [= <-]. apply Forall_fmap, Forall_forall. intros j Hj%elem_of_seq.
    simpl. destruct (Z.ltb_spec b a) as [Hab|Hab]; [|simpl in Hj; lia].
    assert (0 < - st)%Z as Hneg by lia.
    pose proof (Z.mul_div_le (a - b - 1) (- st) Hneg) as Hq.
    assert (Z.of_nat j <= (a - b - 1) / - st)%Z as Hjq by lia.
    assert (Z.of_nat j * (- st) <= a - b - 1)%Z by nia.
    subst n. nia.
Qed.

Lemma slice_positions_ok (len : nat) (start stop step : option Z) :
  step <> Some 0%Z -> exists ks, slice_positions len start stop step = Ok ks.
Proof.
  intros Hs. unfold slice_positions. cbv zeta.
  rewrite decide_False by (destruct step; simpl; congruence).
  case_decide; by eexists.
Qed.

Lemma gather_rows (N : nat) (a : rows) (ks : list nat) :
  wf_rows N a -> Forall (fun k => k < length a) ks ->
  (fun o => concat a !!! o)
    <$> (ks ≫= fun k => (fun o => k * N + o) <$> seq 0 N)
  = concat ((fun k => a !!! k) <$> ks).
Proof.
  intros Hwf. induction 1 as [|k ks Hk _ IH]; [done|].
  cbn [mbind list_bind fmap list_fmap concat]. rewrite fmap_app.
  f_equal; [|apply IH].
  rewrite <- list_fmap_compose.
  apply (concat_row N a k); [done|]. by apply list_lookup_lookup_total_lt.
Qed.

(** X21.  A slice of a batch is a batch of the same class holding the rows
    at the positions the slice selects, all of them inside the batch; this
    holds for every start, stop and step other than 0, and a step of 0 is a
    [ValueError]. *)
Theorem VectorNArray_getitem_slice (N : nat) (a : rows) (start stop step : option Z) :
  wf_rows N a ->
  (step <> Some 0%Z ->
   exists ks, slice_positions (length a) start stop step = Ok ks
     /\ Forall (fun k => k < length a) ks
     /\ VectorNArray_getitem N (of_rows N a) (Item (ISlice start stop step))
        = Ok (View (VectorNArray N) (of_rows N ((fun k => a !!! k) <$> ks))))
  /\ (step = Some 0%Z ->
      VectorNArray_getitem N (of_rows N a) (Item (ISlice start stop step))
      = Raise (ValueError ZeroStep)).
Proof.
  intros Hwf. split.
  - intros Hs. destruct (slice_positions_ok (length a) start stop step Hs) as [ks Hks].
    pose proof (slice_positions_bound _ _ _ _ _ Hks) as Hb.
    exists ks. split; [done|]. split; [done|].
    unfold VectorNArray_getitem, ndarray_getitem, of_rows.
    cbn [shape data length expand_ellipsis consumes fmap result_fmap bind select].
    rewrite !bind_Ok. cbn [select foldr]. rewrite Hks, !bind_Ok. cbn [fst snd shape].
    cbn [VectorNArray_getReturnType view_as]. rewrite decide_True by done.
    rewrite Nat.mul_1_r, length_fmap. do 3 f_equal.
    by apply gather_rows.
  - intros ->. unfold VectorNArray_getitem, ndarray_getitem, of_rows.
    cbn [shape data length expand_ellipsis consumes fmap result_fmap bind select].
    rewrite !bind_Ok. cbn [select foldr]. reflexivity.
Qed.

Lemma VectorNArray_getitem_slice_witness :
  exists ks, slice_positions 3 None None (Some (-2)%Z) = Ok ks
    /\ Forall (fun k => k < 3) ks
    /\ VectorNArray_getitem 2
         (of_rows 2 [[Fin 1; Fin 2]; [Fin 3; Fin 4]; [Fin 5; Fin 6]])
         (Item (ISlice None None (Some (-2)%Z)))
       = Ok (View (VectorNArray 2)
               (of_rows 2 ((fun k => [[Fin 1; Fin 2]; [Fin 3; Fin 4]; [Fin 5; Fin 6]] !!! k)
                           <$> ks))).
Proof.
  refine (proj1 (VectorNArray_getitem_slice 2
            [[Fin 1; Fin 2]; [Fin 3; Fin 4]; [Fin 5; Fin 6]] None None (Some (-2)%Z) _) _).
  - repeat constructor.
  - discriminate.
Defined.

(** ** Growing an array: what a failed call leaves behind *)

(** X22.  [append] with a value that has neither [N] entries nor one entry
    raises numpy's broadcasting [ValueError] only after the receiver has
    been resized: the receiver is left one row longer, the new row being
    zeros. *)
Theorem append_wrong_size (N : nat) (h : store) (self : loc) (a : pyarray) (v : vec) :
  h !! self = Some a -> resizable a = true ->
  length v <> N -> length v <> 1 ->
  VectorNArray_append N self v h
  = (Raise (ValueError Broadcast),
     <[self:=PyArray (buf a ++ [replicate N Num.zero]) true]> h).
Proof.
  intros Hself Hres HvN Hv1. unfold VectorNArray_append.
  rewrite (M_bind_Ok _ _ _ _ _ (deref_Some _ _ _ Hself)).
  pose proof (ndarray_resize_grow N h self a 1 Hself) as Hr.
  rewrite Hres in Hr. rewrite (M_bind_Ok _ _ _ _ _ Hr).
  erewrite M_bind_Ok by (apply deref_Some, lookup_insert_eq).
  cbn [buf replicate].
  erewrite M_bind_Raise; [reflexivity|].
  unfold lift. f_equal. unfold Np.setrow, Np.norm_index. simpl.
  rewrite decide_True by (rewrite length_app; simpl; lia). rewrite bind_Ok.
  rewrite length_app. simpl.
  replace (Z.to_nat (-1 + Z.of_nat (length (buf a) + 1))) with (length (buf a)) by lia.
  rewrite lookup_app_r, Nat.sub_diag by lia. simpl.
  unfold Np.assign. rewrite length_replicate, decide_False by done.
  destruct v as [|x [|y v]]; simpl in *; try done.
Qed.

Lemma append_wrong_size_witness :
  VectorNArray_append 3 1%positive [Fin 1; Fin 2]
    {[ 1%positive := PyArray [[Fin 7; Fin 8; Fin 9]] true ]}
  = (Raise (ValueError Broadcast),
     <[1%positive:=PyArray ([[Fin 7; Fin 8; Fin 9]] ++ [replicate 3 Num.zero]) true]>
       {[ 1%positive := PyArray [[Fin 7; Fin 8; Fin 9]] true ]}).
Proof.
  apply (append_wrong_size 3 _ 1%positive (PyArray [[Fin 7; Fin 8; Fin 9]] true)).
  - apply lookup_singleton_eq.
  - reflexivity.
  - simpl. lia.
  - simpl. lia.
Defined.



(** ** Batches against single values *)

Lemma bpairs_same_length {A B} (xs : list A) (ys : list B) :
  length xs = length ys -> bpairs xs ys = zip xs ys.
Proof.
  intros Hl. unfold bpairs.
  destruct xs as [|x [|x' xs]], ys as [|y [|y' ys]]; simpl in *; try done.
Qed.

(** X24.  The product of two batches of the same length is the product of
    the quaternions row by row; the product of one quaternion with a batch
    that is not empty multiplies it, on the left, with every row. *)
Theorem QuaternionArray_mul_rows (p q : list quat) (a : quat) :
  length p = length q ->
  (exists r,
     QuaternionArray_mul (quat_row <$> p) (quat_row <$> q) = Ok r
     /\ mapM (fun ab => Quaternion_mul (quat_row ab.1) (quat_row ab.2)) (zip p q) = Ok r)
  /\ (p <> [] ->
      exists s,
        Quaternion_mul_QuaternionArray (quat_row a) (quat_row <$> p) = Ok s
        /\ mapM (fun b => Quaternion_mul (quat_row a) (quat_row b)) p = Ok s).
Proof.
  intros Hl. unfold QuaternionArray_mul, Quaternion_mul_QuaternionArray,
    Quaternion_asArray, arrayCompat. cbv zeta. split.
  - rewrite quatquatProduct_pairs by (by left).
    eexists. split; [reflexivity|].
    rewrite bpairs_same_length by done. clear Hl.
    induction (zip p q) as [|[x y] l IH]; [done|].
    cbn [mapM fmap list_fmap fst snd]. rewrite Quaternion_mul_hamilton, bind_Ok.
    rewrite IH. reflexivity.
  - intros Hp. change [quat_row a] with (quat_row <$> [a]).
    rewrite quatquatProduct_pairs
      by (right; left; split; [done|by destruct p]).
    eexists. split; [reflexivity|].
    unfold bpairs. rewrite <- list_fmap_compose. clear Hl Hp.
    induction p as [|b p IH]; [done|].
    cbn [mapM fmap list_fmap fst snd compose].
    rewrite Quaternion_mul_hamilton, bind_Ok.
    rewrite IH. reflexivity.
Qed.

Lemma QuaternionArray_mul_rows_witness :
  exists r,
    QuaternionArray_mul [[Fin 1; Fin 0; Fin 0; Fin 0]] [[Fin 0; Fin 1; Fin 0; Fin 0]] = Ok r
    /\ mapM (fun ab => Quaternion_mul (quat_row ab.1) (quat_row ab.2))
         [((Fin 1, Fin 0, Fin 0, Fin 0), (Fin 0, Fin 1, Fin 0, Fin 0))] = Ok r.
Proof.
  exact (proj1 (QuaternionArray_mul_rows [(Fin 1, Fin 0, Fin 0, Fin 0)]
                  [(Fin 0, Fin 1, Fin 0, Fin 0)] (Fin 0, Fin 0, Fin 0, Fin 1) eq_refl)).
Defined.

Lemma vectorquatproduct_one_quat (vs : rows) (q : vec) :
  vectorquatproduct vs [q]
  = Ok ((fun v =>
           zip_with Num.add
             (zip_with Num.add v
                (Np.scale (Num.mul Num.two (q !!! 3)) (Np.cross (take 3 q) v)))
             (Np.scale Num.two (Np.cross (take 3 q) (Np.cross (take 3 q) v)))) <$> vs).
Proof.
  unfold vectorquatproduct, arrayCompat, Np.cols_upto, Np.col, Np.mul_trailing.
  cbv zeta. cbn [fmap list_fmap Np.scale].
  rewrite broadcast2_singleton_l, bind_Ok.
  rewrite broadcast2_singleton_l, bind_Ok.
  rewrite bind_Ok. rewrite <- !list_fmap_compose.
  rewrite <- (list_fmap_id vs) at 1.
  fmap_step. rewrite broadcast2_fmap. reflexivity.
Qed.

Lemma dimension_3 : dimension 3.
Proof. unfold dimension. set_solver. Qed.

Lemma rotated_length (v q : vec) :
  length v = 3 -> length q = 4 ->
  length (zip_with Num.add
            (zip_with Num.add v
               (Np.scale (Num.mul Num.two (q !!! 3)) (Np.cross (take 3 q) v)))
            (Np.scale Num.two (Np.cross (take 3 q) (Np.cross (take 3 q) v)))) = 3.
Proof.
  intros Hv Hq.
  destruct v as [|a [|b [|c [|]]]], q as [|x [|y [|z [|w [|]]]]]; done.
Qed.

Lemma VectorN_mul_Quaternion_value (N : nat) (v q : vec) :
  dimension N -> length v = N -> length q = 4 ->
  VectorN_mul_Quaternion N v q
  = Ok (resized 3 N Num.one
          (let v := resized N 3 Num.one v in
           zip_with Num.add
             (zip_with Num.add v
                (Np.scale (Num.mul Num.two (q !!! 3)) (Np.cross (take 3 q) v)))
             (Np.scale Num.two (Np.cross (take 3 q) (Np.cross (take 3 q) v))))).
Proof.
  intros HN Hv Hq. unfold VectorN_mul_Quaternion, VectorN_asArray, Quaternion_asArray.
  rewrite VectorN_asVectorSize_resized by (done || apply dimension_3).
  rewrite bind_Ok, vectorquatproduct_one_quat, bind_Ok.
  cbn [fmap list_fmap].
  rewrite (getrow_ok [_] 0 _ eq_refl), bind_Ok.
  rewrite VectorN_asVectorSize_resized; [done|done|].
  apply rotated_length; [|done]. by apply resized_length.
Qed.

(** X25.  A batch of vectors times one quaternion rotates every vector by
    that quaternion: the result is what [*] gives vector by vector, for the
    classes of all three dimensions. *)
Theorem VectorNArray_mul_Quaternion_rows (N : nat) (vs : rows) (q : vec) :
  dimension N -> wf_rows N vs -> length q = 4 ->
  exists r,
    VectorNArray_mul_Quaternion N vs q = Ok r
    /\ mapM (fun v => VectorN_mul_Quaternion N v q) vs = Ok r
    /\ length r = length vs.
Proof.
  intros HN Hwf Hq. unfold VectorNArray_mul_Quaternion, Quaternion_asArray.
  rewrite VectorNArray_asVectorSize_resized by (done || apply dimension_3).
  rewrite bind_Ok, vectorquatproduct_one_quat, bind_Ok.
  rewrite VectorNArray_asVectorSize_resized; [|done|].
  2:{ apply Forall_fmap, Forall_fmap, Forall_forall. intros v Hin. simpl.
      apply rotated_length; [|done]. apply resized_length.
      by apply (proj1 (Forall_forall _ _) Hwf). }
  eexists. split; [reflexivity|]. split; [|by rewrite !length_fmap].
  induction Hwf as [|v vs Hv Hwf IH]; [done|].
  cbn [mapM fmap list_fmap]. rewrite VectorN_mul_Quaternion_value by done.
  rewrite bind_Ok, IH. reflexivity.
Qed.

Lemma VectorNArray_mul_Quaternion_rows_witness :
  exists r,
    VectorNArray_mul_Quaternion 2 [[Fin 1; Fin 0]; [Fin 0; Fin 1]]
      [Fin 0; Fin 0; Fin 1; Fin 0] = Ok r
    /\ mapM (fun v => VectorN_mul_Quaternion 2 v [Fin 0; Fin 0; Fin 1; Fin 0])
         [[Fin 1; Fin 0]; [Fin 0; Fin 1]] = Ok r
    /\ length r = 2.
Proof.
  apply (VectorNArray_mul_Quaternion_rows 2 [[Fin 1; Fin 0]; [Fin 0; Fin 1]]
           [Fin 0; Fin 0; Fin 1; Fin 0]).
  - unfold dimension. set_solver.
  - repeat constructor.
  - reflexivity.
Defined.

(** X26.  A batch of exactly three vectors times a batch of exactly three
    quaternions does not raise, and it does not rotate row by row either:
    where the product with one quaternion scales [u × v] by the scalar part
    of that quaternion, the batch scales its three components by the scalar
    parts of the first, second and third quaternion.  Already for three unit
    quaternions the two results differ. *)
Theorem vectorquatproduct_three_rows (v0 v1 v2 : R * R * R) (q0 q1 q2 : rquat) :
  let ws := (scalar_part q0, scalar_part q1, scalar_part q2) in
  VectorN_mul_Quaternion 3 (fin3 v0) (real_row q0)
  = Ok (fin3 (rotated_with (scalar_part q0, scalar_part q0, scalar_part q0) q0 v0))
  /\ VectorNArray_mul_QuaternionArray 3 (fin3 <$> [v0; v1; v2]) (real_row <$> [q0; q1; q2])
     = Ok (fin3 <$> [rotated_with ws q0 v0; rotated_with ws q1 v1; rotated_with ws q2 v2])
  /\ VectorNArray_mul_QuaternionArray 3
       (fin3 <$> [(0, 1, 0); (0, 1, 0); (0, 1, 0)]%R)
       (real_row <$> [(1, 0, 0, 0); (0, 0, 0, 1); (0, 0, 0, 1)]%R)
     <> mapM (fun vq => VectorN_mul_Quaternion 3 (fin3 vq.1) (real_row vq.2))
          [((0, 1, 0), (1, 0, 0, 0)); ((0, 1, 0), (0, 0, 0, 1));
           ((0, 1, 0), (0, 0, 0, 1))]%R.
Proof.
  destruct v0 as [[v0x v0y] v0z], v1 as [[v1x v1y] v1z], v2 as [[v2x v2y] v2z].
  destruct q0 as [[[x0 y0] z0] w0], q1 as [[[x1 y1] z1] w1], q2 as [[[x2 y2] z2] w2].
  cbv zeta. split; [|split].
  - unfold VectorNArray_mul_QuaternionArray. np_unfold. simpl.
    repeat (f_equal; try ring).
  - unfold VectorNArray_mul_QuaternionArray. np_unfold. simpl.
    repeat (f_equal; try ring).
  - unfold VectorNArray_mul_QuaternionArray. np_unfold. simpl.
    intros H. injection H as _ _ H _. lra.
Qed.

Lemma lerp_at_0 (xs ys : list R) :
  length xs = length ys ->
  zip_with (fun x y => ((y - x) * 0 + x)%R) xs ys = xs.
Proof.
  revert ys. induction xs as [|x xs IH]; intros [|y ys] Hl; simpl in *; try done.
  rewrite IH by lia. f_equal. ring.
Qed.

Lemma lerp_at_1 (xs ys : list R) :
  length xs = length ys ->
  zip_with (fun x y => ((y - x) * 1 + x)%R) xs ys = ys.
Proof.
  revert ys. induction xs as [|x xs IH]; intros [|y ys] Hl; simpl in *; try done.
  rewrite IH by lia. f_equal. ring.
Qed.

Lemma VectorNArray_lerp_fin (l : list (list R * list R * R)) :
  Forall (fun p => length p.1.1 = length p.1.2) l ->
  VectorNArray_lerp ((fun p => fin_vec p.1.1) <$> l) ((fun p => fin_vec p.1.2) <$> l)
    ((fun p => Fin p.2) <$> l)
  = Ok ((fun p => fin_vec (zip_with (fun x y => ((y - x) * p.2 + x)%R) p.1.1 p.1.2)) <$> l).
Proof.
  intros Hl. unfold VectorNArray_lerp, arrayCompat. cbv zeta.
  fmap_step. fmap_step. rewrite broadcast2_fmap. f_equal.
  apply Forall_fmap_ext. eapply Forall_impl; [exact Hl|].
  intros [[xs ys] t] Hp. simpl in *.
  change Num.sub with (Num.lift2 Rminus). rewrite zip_with_fin, scale_fin_vec.
  change Num.add with (Num.lift2 Rplus). rewrite zip_with_fin. f_equal.
  clear Hp. revert ys. induction xs as [|x xs IH]; intros [|y ys]; simpl; try done.
  by rewrite IH.
Qed.



Lemma VectorN_distance_value (N : nat) (v p : vec) :
  length v = length p ->
  VectorN_distance N v p
  = Ok (Num.sqrt (Np.rowdot (zip_with Num.sub v p) (zip_with Num.sub v p))).
Proof.
  intros Hl. unfold VectorN_distance.
  rewrite broadcast2_same_length by done. rewrite bind_Ok.
  unfold VectorN_length, VectorN_lengthSquared, VectorN_mul_VectorN.
  by rewrite decide_False by (intros H; by apply H).
Qed.

(** X28.  The distances from a batch of points to one point are the
    distances of [VectorN.distance], point by point. *)
Theorem VectorNArray_distances_rows (N : nat) (self : rows) (p : vec) :
  wf_rows N self -> length p = N ->
  exists ds,
    VectorNArray_distances self [p] = Ok ds
    /\ mapM (fun v => VectorN_distance N v p) self = Ok ds
    /\ length ds = length self.
Proof.
  intros Hwf Hp. unfold VectorNArray_distances.
  rewrite broadcast2_singleton_r, bind_Ok.
  eexists. split; [reflexivity|]. split.
  - unfold VectorNArray_length, VectorNArray_lengthSquared.
    induction Hwf as [|v vs Hv Hwf IH]; [done|].
    cbn [mapM fmap list_fmap]. rewrite VectorN_distance_value by congruence.
    rewrite bind_Ok, IH. reflexivity.
  - unfold VectorNArray_length, VectorNArray_lengthSquared.
    by rewrite !length_fmap.
Qed.

Lemma VectorNArray_distances_rows_witness :
  exists ds,
    VectorNArray_distances [[Fin 3; Fin 4]; [Fin 0; Fin 0]] [[Fin 0; Fin 0]] = Ok ds
    /\ mapM (fun v => VectorN_distance 2 v [Fin 0; Fin 0]) [[Fin 3; Fin 4]; [Fin 0; Fin 0]]
       = Ok ds
    /\ length ds = 2.
Proof.
  apply (VectorNArray_distances_rows 2 [[Fin 3; Fin 4]; [Fin 0; Fin 0]] [Fin 0; Fin 0]).
  - repeat constructor.
  - reflexivity.
Defined.

(** ** Interpolation of rotations *)

Lemma add_comm (a b : num) : Num.add a b = Num.add b a.
Proof. destruct a, b; simpl; try done. f_equal. ring. Qed.

Lemma zip_with_add_comm (a b : vec) : zip_with Num.add a b = zip_with Num.add b a.
Proof.
  revert b. induction a as [|x a IH]; intros [|y b]; simpl; try done.
  by rewrite add_comm, IH.
Qed.


